(** * hyprls: the documentation loader ([parser/data/load.go])

    A shallow embedding of the Go code that turns the rendered wiki pages
    into section and keyword tables, and the properties of it that the
    specification states.

    Conventions of the embedding:
    - a Go [string] is a byte string, here [string] of the Standard Library;
    - a Go panic is the result [Panic]; a deferred [recover] is a handler
      on that result;
    - the recursive functions of the source walk a finite list of siblings;
      they are written with a fuel argument, and the functions that carry
      the source's names supply enough of it ([OutOfFuel] is never their
      result, see [backtrack_fuel_enough] and the like);
    - the Go libraries the loader calls (soup, x/net/html, strconv, strings,
      regexp, goldmark) are not part of the repository: what the loader
      needs of them is modelled below, the serializer, the markdown
      converter and the HTML parser being parameters. *)

From Stdlib Require Import String Ascii ZArith Lia Bool.
From stdpp Require Import base option list strings gmap.

Local Open Scope string_scope.
Local Open Scope list_scope.
Local Set Warnings "-register-all".

(* ===================================================================== *)
(** ** Results of code that can panic *)
(* ===================================================================== *)

Inductive result (A : Type) : Type :=
| Ok (a : A)
| Panic
| OutOfFuel.

Arguments Ok {A} a.
Arguments Panic {A}.
Arguments OutOfFuel {A}.

Definition bind {A B : Type} (m : result A) (k : A -> result B) : result B :=
  match m with
  | Ok a => k a
  | Panic => Panic
  | OutOfFuel => OutOfFuel
  end.

Notation "'do' x <- m ; k" := (bind m (fun x => k))
  (at level 10, x name, m at level 100, k at level 200).
Notation "'do' ' p <- m ; k" := (bind m (fun x => let 'p := x in k))
  (at level 10, p pattern, m at level 100, k at level 200).

Definition ofOption {A : Type} (o : option A) : result A :=
  match o with
  | Some a => Ok a
  | None => Panic
  end.

Definition isOk {A : Type} (m : result A) : bool :=
  match m with Ok _ => true | _ => false end.

(** [for _, x := range l { acc = body(acc, x) }] where the body can panic. *)
Fixpoint foldM {A B : Type} (body : A -> B -> result A) (l : list B) (acc : A)
  : result A :=
  match l with
  | [] => Ok acc
  | x :: l' => do acc' <- body acc x; foldM body l' acc'
  end.

(* ===================================================================== *)
(** ** Go library functions on strings *)
(* ===================================================================== *)

Module Go.

Definition byte (c : ascii) : N := N_of_ascii c.

(** The six ASCII white space bytes of [strings.TrimSpace]'s fast path. *)
Definition asciiSpace (c : ascii) : bool :=
  let n := byte c in
  ((9 <=? n) && (n <=? 13) || (n =? 32))%N.

(** U+0085 and U+00A0 in UTF-8. *)
Definition space2 (c1 c2 : ascii) : bool :=
  ((byte c1 =? 194) && ((byte c2 =? 133) || (byte c2 =? 160)))%N.

(** The three-byte white space runes: U+1680, U+2000..U+200A, U+2028,
    U+2029, U+202F, U+205F, U+3000. *)
Definition space3 (c1 c2 c3 : ascii) : bool :=
  let (a, b) := (byte c1, byte c2) in
  let c := byte c3 in
  ((a =? 225) && (b =? 154) && (c =? 128)
   || (a =? 226) && (b =? 128)
      && ((128 <=? c) && (c <=? 138) || (c =? 168) || (c =? 169) || (c =? 175))
   || (a =? 226) && (b =? 129) && (c =? 159)
   || (a =? 227) && (b =? 128) && (c =? 128))%N.

(** [strings.TrimLeftFunc(s, unicode.IsSpace)] on the UTF-8 bytes. *)
Fixpoint trimLeft (s : string) : string :=
  match s with
  | EmptyString => s
  | String c1 s1 =>
      if asciiSpace c1 then trimLeft s1
      else match s1 with
           | EmptyString => s
           | String c2 s2 =>
               if space2 c1 c2 then trimLeft s2
               else match s2 with
                    | EmptyString => s
                    | String c3 s3 =>
                        if space3 c1 c2 c3 then trimLeft s3 else s
                    end
           end
  end.

Fixpoint rev_append (s acc : string) : string :=
  match s with
  | EmptyString => acc
  | String c s' => rev_append s' (String c acc)
  end.

Definition rev (s : string) : string := rev_append s EmptyString.

(** The same white space runes read from the end of the string. *)
Fixpoint trimLeftRev (s : string) : string :=
  match s with
  | EmptyString => s
  | String c1 s1 =>
      if asciiSpace c1 then trimLeftRev s1
      else match s1 with
           | EmptyString => s
           | String c2 s2 =>
               if space2 c2 c1 then trimLeftRev s2
               else match s2 with
                    | EmptyString => s
                    | String c3 s3 =>
                        if space3 c3 c2 c1 then trimLeftRev s3 else s
                    end
           end
  end.

(** [strings.TrimSpace]. *)
Definition TrimSpace (s : string) : string :=
  rev (trimLeftRev (rev (trimLeft s))).

(** [strings.ToLower] on ASCII letters. *)
Definition lowerByte (c : ascii) : ascii :=
  let n := byte c in
  if ((65 <=? n) && (n <=? 90))%N then ascii_of_N (n + 32) else c.

Definition isDigit (c : ascii) : bool :=
  let n := byte c in ((48 <=? n) && (n <=? 57))%N.

Definition isAlnum (c : ascii) : bool :=
  let n := byte c in
  (isDigit c || (65 <=? n) && (n <=? 90) || (97 <=? n) && (n <=? 122))%N.

(** [s[1:]]: slicing an empty string from 1 panics. *)
Definition sliceFrom1 (s : string) : result string :=
  match s with
  | EmptyString => Panic
  | String _ rest => Ok rest
  end.

Fixpoint digits (s : string) (acc : Z) : option Z :=
  match s with
  | EmptyString => Some acc
  | String c rest =>
      if isDigit c
      then digits rest (10 * acc + (Z.of_N (byte c) - 48))%Z
      else None
  end.

(** [strconv.Atoi]: an optional sign and decimal digits, in the range of
    a 64-bit [int]; [None] is a non-nil [err]. *)
Definition Atoi (s : string) : option Z :=
  let unsigned (t : string) :=
    match t with
    | EmptyString => None
    | _ => digits t 0
    end in
  let inRange (z : Z) :=
    if ((- 2 ^ 63 <=? z) && (z <? 2 ^ 63))%Z then Some z else None in
  match s with
  | String "+" t => z ← unsigned t; inRange z
  | String "-" t => z ← unsigned t; inRange (- z)%Z
  | _ => z ← unsigned s; inRange z
  end.

(** [regexp.MustCompile(`^h[1-6]$`).MatchString]. *)
Definition matchHeadingTag (s : string) : bool :=
  match s with
  | String "h" (String d EmptyString) =>
      ((49 <=? byte d) && (byte d <=? 54))%N
  | _ => false
  end.

Fixpoint stripPrefix (p s : string) : option string :=
  match p, s with
  | EmptyString, _ => Some s
  | String a p', String b s' => if Ascii.eqb a b then stripPrefix p' s' else None
  | String _ _, EmptyString => None
  end.

Fixpoint skipMany (c : ascii) (s : string) : string :=
  match s with
  | String b s' => if Ascii.eqb b c then skipMany c s' else s
  | EmptyString => s
  end.

(** [regexp.MustCompile(`^weight-%d+-title-`).ReplaceAllString(s, "")]:
    the pattern is anchored, so it matches at most once, at the start:
    the bytes [weight-%], one or more [d], then [-title-]. *)
Definition stripWeightTitle (s : string) : string :=
  match stripPrefix "weight-%" s with
  | Some (String "d" ds) =>
      match stripPrefix "-title-" (skipMany "d" ds) with
      | Some rest => rest
      | None => s
      end
  | _ => s
  end.

End Go.


(* ===================================================================== *)
(** ** The node tree ([golang.org/x/net/html]) and soup's cursor on it *)
(* ===================================================================== *)

Inductive NodeType : Type :=
| ErrorNode | TextNode | DocumentNode | ElementNode | CommentNode
| DoctypeNode | RawNode.

Definition NodeType_eqb (a b : NodeType) : bool :=
  match a, b with
  | ErrorNode, ErrorNode | TextNode, TextNode | DocumentNode, DocumentNode
  | ElementNode, ElementNode | CommentNode, CommentNode
  | DoctypeNode, DoctypeNode | RawNode, RawNode => true
  | _, _ => false
  end.

(** [html.Node]: the links of the Go struct (parent, first child, siblings)
    are the positions in the [Children] lists. *)
Inductive Node : Type :=
  mkNode { NType : NodeType;
           Data : string;
           Attr : list (string * string);
           Children : list Node }.

(** Where a [*html.Node] sits among its siblings: the siblings before it,
    nearest first, the node, and the siblings after it. *)
Record Cursor : Type :=
  mkCursor { prevs : list Node; node : Node; nexts : list Node }.

(** [soup.Root]. A [Root] that reports an error has a nil [Pointer] and an
    empty [NodeValue]; the loader never reads its [Error] field. *)
Record Root : Type :=
  mkRoot { Pointer : option Cursor; NodeValue : string }.

Module soup.

Definition rootAt (ps : list Node) (n : Node) (ns : list Node) : Root :=
  {| Pointer := Some (mkCursor ps n ns); NodeValue := Data n |}.

Definition errorRoot : Root := {| Pointer := None; NodeValue := "" |}.

Definition isElement (n : Node) : bool := NodeType_eqb (NType n) ElementNode.

(** The walk of [FindNextElementSibling] over the following siblings,
    stepping over the nodes that are not elements. *)
Fixpoint nextElement (ps : list Node) (ns : list Node) : Root :=
  match ns with
  | [] => errorRoot
  | n :: ns' =>
      if isElement n then rootAt ps n ns' else nextElement (n :: ps) ns'
  end.

Fixpoint prevElement (ps : list Node) (ns : list Node) : Root :=
  match ps with
  | [] => errorRoot
  | p :: ps' =>
      if isElement p then rootAt ps' p ns else prevElement ps' (p :: ns)
  end.

(** Both dereference [r.Pointer]: on a nil pointer they panic. *)
Definition FindNextElementSibling (r : Root) : result Root :=
  do c <- ofOption (Pointer r);
  Ok (nextElement (node c :: prevs c) (nexts c)).

Definition FindPrevElementSibling (r : Root) : result Root :=
  do c <- ofOption (Pointer r);
  Ok (prevElement (prevs c) (node c :: nexts c)).

(** [findAllofem]: the element descendants of [n] named [tag], in
    document order (depth first, a node before its children). *)
Fixpoint findAllofem (tag : string) (n : Node) : list Root :=
  (fix children (ps ns : list Node) {struct ns} : list Root :=
     match ns with
     | [] => []
     | c :: ns' =>
         (if isElement c && String.eqb (Data c) tag
          then [rootAt ps c ns'] else [])
         ++ findAllofem tag c ++ children (c :: ps) ns'
     end) [] (Children n).

Definition FindAll (r : Root) (tag : string) : result (list Root) :=
  do c <- ofOption (Pointer r);
  Ok (findAllofem tag (node c)).

(** [FullText]: the text of every text node below the element. *)
Fixpoint textBelow (n : Node) : string :=
  match NType n with
  | TextNode => Data n
  | ElementNode =>
      (fix each (cs : list Node) : string :=
         match cs with
         | [] => ""
         | c :: cs' => textBelow c +:+ each cs'
         end) (Children n)
  | _ => ""
  end.

Definition FullText (r : Root) : result string :=
  do c <- ofOption (Pointer r);
  Ok (String.concat "" (map textBelow (Children (node c)))).

(** [regexp `^\s+$`] of [Text]: one or more of tab, newline, form feed,
    carriage return, space. *)
Fixpoint allBlank (s : string) : bool :=
  match s with
  | EmptyString => true
  | String c s' =>
      let n := Go.byte c in
      ((n =? 9) || (n =? 10) || (n =? 12) || (n =? 13) || (n =? 32))%N
      && allBlank s'
  end.

Definition blank (s : string) : bool :=
  match s with EmptyString => false | _ => allBlank s end.

(** [Text]: the first child that is a text node and is not blank. *)
Fixpoint firstText (cs : list Node) : string :=
  match cs with
  | [] => ""
  | k :: cs' =>
      if NodeType_eqb (NType k) TextNode
      then if blank (Data k) then firstText cs' else Data k
      else firstText cs'
  end.

Definition Text (r : Root) : result string :=
  do c <- ofOption (Pointer r);
  Ok (firstText (Children (node c))).

(** [Attrs]: the attributes as a map, the first of two equal keys kept;
    [nil] (the empty map when read) for a node that is not an element. *)
Definition Attrs (r : Root) : result (gmap string string) :=
  do c <- ofOption (Pointer r);
  Ok (if isElement (node c) then list_to_map (Attr (node c)) else ∅).

End soup.

(** Modelled from the spec: [slugify.Marshal(s, true)] belongs to a library
    outside the repository; the specification (4.4, step 3) describes what
    it does to the trimmed heading text: lowercase, and replace runs of
    non-alphanumeric characters with a single hyphen. *)
Module slugify.

Fixpoint hyphenate (inRun : bool) (s : string) : string :=
  match s with
  | EmptyString => EmptyString
  | String c s' =>
      if Go.isAlnum c then String (Go.lowerByte c) (hyphenate false s')
      else if inRun then hyphenate true s'
      else String "-" (hyphenate true s')
  end.

Definition Marshal (s : string) (lower : bool) : string :=
  if lower then hyphenate false s else s.

End slugify.

(* ===================================================================== *)
(** ** The data model: sections, variables, keywords *)
(* ===================================================================== *)

Record VariableDefinition : Type :=
  mkVariable { Name : string; Description : string; Type' : string;
               Default : string }.

(** A [[]string] is a reference to its backing array: copies of a
    [SectionDefinition] share the array of [Path], and a write through one
    copy is seen through the others. [Path] is the address of the array in
    the store [heap]. The loader never appends to a [Path] once the section
    is built, so the length of the slice is the length of the array. *)
Abbreviation loc := nat (only parsing).

Inductive SectionDefinition : Type :=
  mkSection { Path : loc;
              Subsections : list SectionDefinition;
              Variables : list VariableDefinition }.

Abbreviation heap := (list (list string)) (only parsing).

Definition alloc (a : list string) (h : heap) : loc * heap :=
  (length h, h ++ [a]).

Definition deref (h : heap) (l : loc) : list string := default [] (h !! l).

(** Modelled from the spec: the method [Name] of [SectionDefinition] is
    declared in a file of the repository that is not among the sources; by
    the specification (section 3) a section's identity is [Path[last]]. An
    empty [Path] has no last element: the index is out of range. *)
Definition SectionDefinition_Name (h : heap) (s : SectionDefinition)
  : result string :=
  ofOption (last (deref h (Path s))).

Record KeywordDefinition : Type :=
  mkKeyword { kwName : string;
              documentationFile : string;
              documentationHeadingSlug : string;
              kwDescription : string }.

(* ===================================================================== *)
(** ** Documents and a serializer for the examples *)
(* ===================================================================== *)

Module Examples.

Definition text (s : string) : Node := mkNode TextNode s [] [].

Definition elem (tag : string) (attrs : list (string * string))
    (children : list Node) : Node :=
  mkNode ElementNode tag attrs children.

Definition nl : Node := text (String (ascii_of_N 10) "").

(** What [soup.HTMLParse] returns: the document node, with the [html],
    [head] and [body] elements that the parser supplies. *)
Definition document (body : list Node) : Root :=
  soup.rootAt []
    (mkNode DocumentNode "" []
       [elem "html" [] [elem "head" [] []; elem "body" [] body]]) [].

(** The [n]-th of the nodes [body], as the cursor soup would hold. *)
Definition at_ (n : nat) (body : list Node) : Root :=
  match drop n body with
  | [] => soup.errorRoot
  | x :: after => soup.rootAt (rev (take n body)) x after
  end.

Definition renderAttrs (attrs : list (string * string)) : string :=
  String.concat ""
    (map (fun kv => " " +:+ fst kv +:+ "=" +:+ String (ascii_of_N 34) ""
                    +:+ snd kv +:+ String (ascii_of_N 34) "") attrs).

(** Markup of text and element nodes, without escaping. *)
Fixpoint render (n : Node) : string :=
  match NType n with
  | TextNode => Data n
  | ElementNode =>
      "<" +:+ Data n +:+ renderAttrs (Attr n) +:+ ">"
      +:+ (fix each (cs : list Node) : string :=
             match cs with
             | [] => ""
             | c :: cs' => render c +:+ each cs'
             end) (Children n)
      +:+ "</" +:+ Data n +:+ ">"
  | _ => ""
  end.

Definition renderAll (n : Node) : option string := Some (render n).

Definition cell (tag s : string) : Node := elem tag [] [text s].

Definition row (tag : string) (cells : list string) : Node :=
  elem "tr" [] (flat_map (fun s => [nl; cell tag s]) cells ++ [nl]).

Definition table (header : list string) (rows : list (list string)) : Node :=
  elem "table" []
    [nl; elem "thead" [] [nl; row "th" header; nl]; nl;
     elem "tbody" [] (flat_map (fun r => [nl; row "td" r]) rows ++ [nl]); nl].

Definition schema : list string := ["name"; "description"; "type"; "default"].

(** Example A of the specification. *)
Definition bodyA : list Node :=
  [elem "h2" [] [text "General"]; nl;
   table schema [["foo"; "does x"; "bool"; "0"]]; nl].

(** Example B: a subsection below a root, both with a table, and a row
    that lacks a cell. *)
Definition bodyB : list Node :=
  [elem "h2" [] [text "Layout"]; nl;
   table schema [["gaps"; "gaps between windows"; "int"; "5"]]; nl;
   elem "h3" [] [text "sub"]; nl;
   elem "p" [] [text "About sub."]; nl;
   table schema [["a"; "first"; "bool"; "0"]; ["b"; "short row"; "int"];
                 ["c"; "third"; "str"; "x"]]; nl;
   table ["name"; "value"] [["k"; "v"]]; nl].

(** A table that no heading precedes. *)
Definition bodyOrphan : list Node :=
  [elem "p" [] [text "intro"]; nl; table schema [["foo"; "x"; "int"; "0"]];
   nl; elem "h2" [] [text "Late"]].

(** Example C of the specification. *)
Definition bodyC : list Node :=
  [elem "h2" [("id", "my-anchor")] [text "Title"];
   elem "p" [] [text "body"];
   elem "h2" [] [text "Next"]].

(** A heading of level 3, then a more prominent heading before the next
    heading of level 3. *)
Definition bodyLevels : list Node :=
  [elem "h3" [] [text "A"]; nl; elem "p" [] [text "x"]; nl;
   elem "h2" [] [text "B"]; nl; elem "p" [] [text "y"]; nl;
   elem "h3" [] [text "C"]; nl; elem "p" [] [text "z"]].

(** A heading that is followed by the end of the document. *)
Definition bodyTail : list Node :=
  [elem "h2" [] [text "T"]; nl; elem "p" [] [text "a"]; nl].

Definition bodyLast : list Node := [elem "p" [] [text "a"]; elem "h2" [] [text "T"]].

(** Two headings with the same anchor, the less prominent one first. *)
Definition bodyAnchors : list Node :=
  [elem "h2" [("id", "x")] [text "first"]; elem "p" [] [text "one"];
   elem "h1" [("id", "x")] [text "second"]; elem "p" [] [text "two"]].

(** A markdown converter and a parser for the examples: the source text
    names the document. *)
Definition convert (source : string) : option string := Some source.

Definition parse (html : string) : Root :=
  if html =? "A" then document bodyA
  else if html =? "B" then document bodyB
  else if html =? "orphan" then document bodyOrphan
  else if html =? "anchors" then document bodyAnchors
  else document [].

(** The sections of example B, first as the plain pass leaves them. *)
Definition variablesLayout : list VariableDefinition :=
  [mkVariable "gaps" "gaps between windows" "int" "5"].

Definition variablesSub : list VariableDefinition :=
  [mkVariable "a" "first" "bool" "0"; mkVariable "c" "third" "str" "x"].

Definition sectionsB : list SectionDefinition :=
  [mkSection 0 [mkSection 1 [] variablesSub] variablesLayout;
   mkSection 1 [] variablesSub].

Definition heapB : list (list string) := [["Layout"]; ["Layout"; "sub"]].

Definition heapMaster : list (list string) := [["Master"]; ["Master"; "sub"]].

(** Two headings of level 3 below a heading of level 2, and a table. *)
Definition tableV : Node := table schema [["v"; "a variable"; "int"; "0"]].

Definition headingY : Node := elem "h3" [] [text "y"].

Definition beforeY : list Node :=
  [nl; elem "p" [] [text "about x"]; nl; elem "h3" [] [text "x"]; nl;
   elem "h2" [] [text "A"]].

Definition bodyNested : list Node :=
  rev beforeY ++ [headingY; nl; tableV; nl].

(** The cursor on the table of [bodyNested]. *)
Definition cursorV : Cursor := mkCursor ([nl] ++ headingY :: beforeY) tableV [nl].

(** The sections of example B when the store holds one array before the
    pass, and the table of [init] for the documents A, B and B. *)
Definition sectionsMaster : list SectionDefinition :=
  [mkSection 1 [mkSection 2 [] variablesSub] variablesLayout;
   mkSection 2 [] variablesSub].

Definition sectionsDwindle : list SectionDefinition :=
  [mkSection 3 [mkSection 4 [] variablesSub] variablesLayout;
   mkSection 4 [] variablesSub].

Definition sectionGeneral : SectionDefinition :=
  mkSection 0 [] [mkVariable "foo" "does x" "bool" "0"].

Definition sectionGeneralMore : SectionDefinition :=
  mkSection 0 []
    [mkVariable "foo" "does x" "bool" "0";
     mkVariable "autogenerated" "Whether this configuration was autogenerated"
                "bool" "1"].

Definition heapInit : list (list string) :=
  [["General"]; ["Master"]; ["Master"; "sub"]; ["Dwindle"]; ["Dwindle"; "sub"]].

(** The files of the keywords, and the path of a file. *)
Definition readFile (path : string) : option string :=
  if path =? "sources/Keywords.md" then Some "anchors" else None.

Definition join (directory file : string) : string :=
  directory +:+ "/" +:+ file.

Definition keywords : list KeywordDefinition :=
  [mkKeyword "bind" "Keywords" "x" "";
   mkKeyword "exec" "Keywords" "nowhere" "";
   mkKeyword "env" "Missing" "x" "";
   mkKeyword "source" "Keywords" "x" "Includes another file."].

Definition keywordsDone : list KeywordDefinition :=
  [mkKeyword "bind" "Keywords" "x" "<p>two</p>";
   mkKeyword "exec" "Keywords" "nowhere" "";
   mkKeyword "env" "Missing" "x" "";
   mkKeyword "source" "Keywords" "x" "Includes another file."].

End Examples.

(* ===================================================================== *)
(** ** The loader *)
(* ===================================================================== *)

Section Loader.

(** What soup's [HTML] does on a node that is there, around its call of
    [html.Render]: the string it returns, or [None] when it panics. soup
    returns the markup that [html.Render] wrote, and the empty string when
    [html.Render] returns an error: as soup has it, the serializer returns
    on every node, [forall n, is_Some (html_Render n)], and a node that
    fails to serialize has the empty markup. *)
Variable html_Render : Node -> option string.

(** [os.Getenv("DEBUG")]. *)
Variable DEBUG : string.

(** goldmark's [md.Convert] ([None]: it returns an error) and
    [soup.HTMLParse]. *)
Variable md_Convert : string -> option string.
Variable soup_HTMLParse : string -> Root.

(** The converter [html2md.ConvertString]; its error is discarded. *)
Variable html2md_ConvertString : string -> string.

(** [soup.Root.HTML]: [html.Render] dereferences the node, so a nil
    [Pointer] panics. *)
Definition HTML (r : Root) : result string :=
  do c <- ofOption (Pointer r);
  ofOption (html_Render (node c)).

(** [debug(msg, args...)] prints nothing, but Go has evaluated its
    arguments before the call. *)
Definition debug (arg : result string) : result unit :=
  do _ <- arg; Ok tt.

Definition markdownToHTML (source : string) : result Root :=
  match md_Convert source with
  | None => Panic
  | Some html => Ok (soup_HTMLParse html)
  end.

Definition isHeading (element : Root) : bool :=
  Go.matchHeadingTag (NodeValue element).

Definition headingLevel (heading : Root) : result Z :=
  do digits <- Go.sliceFrom1 (NodeValue heading);
  match Go.Atoi digits with
  | None => Panic
  | Some level => Ok level
  end.

(** *** The heading path of a table *)

Fixpoint backtrackToNearestHeader_fuel (fuel : nat) (element : Root)
  : result Root :=
  match fuel with
  | O => OutOfFuel
  | S fuel' =>
      do _ <- (if negb (NodeValue element =? "table")
               then debug (HTML element) else Ok tt);
      if Go.matchHeadingTag (NodeValue element)
      then do _ <- debug (HTML element); Ok element
      else
        do prev <- soup.FindPrevElementSibling element;
        do _ <- debug (HTML prev);
        backtrackToNearestHeader_fuel fuel' prev
  end.

(** The number of nodes from the start of the sibling list up to the
    cursor, the node itself included. *)
Definition before (r : Root) : nat :=
  match Pointer r with
  | None => 0
  | Some c => S (length (prevs c))
  end.

Definition backtrackToNearestHeader (element : Root) : result Root :=
  backtrackToNearestHeader_fuel (S (before element)) element.

Fixpoint tablePath_fuel (fuel : nat) (table : Root) (headingRootLevel : Z)
  : result (list string) :=
  match fuel with
  | O => OutOfFuel
  | S fuel' =>
      do header <- backtrackToNearestHeader table;
      do digits <- Go.sliceFrom1 (NodeValue header);
      do level <- ofOption (Go.Atoi digits);
      if (level <=? headingRootLevel)%Z
      then do text <- soup.FullText header; Ok [text]
      else
        do prev <- soup.FindPrevElementSibling header;
        do path <- tablePath_fuel fuel' prev headingRootLevel;
        do text <- soup.FullText header;
        Ok (path ++ [text])
  end.

Definition tablePath (table : Root) (headingRootLevel : Z)
  : result (list string) :=
  tablePath_fuel (S (before table)) table headingRootLevel.

(** *** Tables to sections *)

Definition tableHeaderCells (table : Root) : result (list string) :=
  do headerCells <- soup.FindAll table "th";
  foldM (fun cells cell => do text <- soup.FullText cell; Ok (cells ++ [text]))
        headerCells [].

Fixpoint arraysEqual_from (i : nat) (a b : list string) : result bool :=
  match a with
  | [] => Ok true
  | v :: a' =>
      do w <- ofOption (b !! i);
      if negb (Go.TrimSpace v =? Go.TrimSpace w) then Ok false
      else arraysEqual_from (S i) a' b
  end.

Definition arraysEqual (a b : list string) : result bool :=
  if negb (length a =? length b)%nat then Ok false
  else arraysEqual_from 0 a b.

(** The body of the loop over the rows of a table. *)
Definition rowVariable (variables : list VariableDefinition) (row : Root)
  : result (list VariableDefinition) :=
  do cells <- soup.FindAll row "td";
  match cells with
  | [c0; c1; c2; c3] =>
      do name <- soup.FullText c0;
      do description <- soup.FullText c1;
      do type <- soup.FullText c2;
      do default <- soup.FullText c3;
      Ok (variables ++ [mkVariable name description type default])
  | _ => Ok variables
  end.

(** The body of the loop over the tables of the document; the state is
    the store and the slice [sections]. *)
Definition tableSection (headingRootLevel : Z)
    (st : heap * list SectionDefinition) (table : Root)
  : result (heap * list SectionDefinition) :=
  do header <- tableHeaderCells table;
  do same <- arraysEqual header ["name"; "description"; "type"; "default"];
  if negb same then Ok st
  else
    do path <- tablePath table headingRootLevel;
    let '(p, h) := alloc path (fst st) in
    do rows <- soup.FindAll table "tr";
    do rows1 <- match rows with [] => Panic | _ :: rows1 => Ok rows1 end;
    do variables <- foldM rowVariable rows1 [];
    Ok (h, snd st ++ [mkSection p [] variables]).

Definition AttachSubsections (h : heap) (s : SectionDefinition)
    (sections : list SectionDefinition) : result SectionDefinition :=
  do subsections <-
    foldM (fun subsections section =>
             if (length (deref h (Path section)) =? 1)%nat then Ok subsections
             else
               do first <- ofOption (deref h (Path section) !! 0%nat);
               do name <- SectionDefinition_Name h s;
               if first =? name then Ok (subsections ++ [section])
               else Ok subsections)
          sections [];
  Ok (mkSection (Path s) subsections (Variables s)).

(** The second loop of [parseDocumentationMarkdown]: [sections[i]] is
    replaced in place, and the method sees the slice as it is then. *)
Definition attachLoop (h : heap) (sections : list SectionDefinition)
  : result (list SectionDefinition) :=
  foldM (fun sections i =>
           do section <- ofOption (sections !! i);
           if (length (deref h (Path section)) =? 1)%nat
           then do s <- AttachSubsections h section sections;
                Ok (<[i := s]> sections)
           else Ok sections)
        (seq 0 (length sections)) sections.

Definition parseDocumentationMarkdown (source : string)
    (headingRootLevel : Z) (h : heap)
  : result (list SectionDefinition * heap) :=
  do document <- markdownToHTML source;
  do tables <- soup.FindAll document "table";
  do st <- foldM (tableSection headingRootLevel) tables (h, []);
  do sections <- attachLoop (fst st) (snd st);
  Ok (sections, fst st).

(** [sections[i].Path[0] = rootSectionName]: a write into the backing
    array; on an empty [Path] the index is out of range. *)
Definition setRoot (rootSectionName : string) (h : heap)
    (s : SectionDefinition) : result heap :=
  match deref h (Path s) with
  | [] => Panic
  | path => Ok (<[Path s := <[0%nat := rootSectionName]> path]> h)
  end.

Definition parseDocumentationMarkdownWithRootSectionName (source : string)
    (headingRootLevel : Z) (rootSectionName : string) (h : heap)
  : result (list SectionDefinition * heap) :=
  do parsed <- parseDocumentationMarkdown source headingRootLevel h;
  do h' <- foldM (setRoot rootSectionName) (fst parsed) (snd parsed);
  Ok (fst parsed, h').

(** *** Keyword descriptions *)

(** The deferred function of [htmlBetweenHeadingAndNextHeading]: it
    recovers a panic of the body, and the function then returns the zero
    value of its unnamed result; with [DEBUG] set it first renders [next]
    again for the message, outside any recovery of this call. *)
Definition deferred (next : Root) (body : result string) : result string :=
  match body with
  | Panic =>
      if negb (DEBUG =? "") then do _ <- HTML next; Ok "" else Ok ""
  | returned => returned
  end.

Fixpoint htmlBetweenHeadingAndNextHeading_fuel (fuel : nat)
    (heading element : Root) : result string :=
  match fuel with
  | O => OutOfFuel
  | S fuel' =>
      do next <- soup.FindNextElementSibling element;
      do stop <- (if isHeading next
                  then do a <- headingLevel next;
                       do b <- headingLevel heading;
                       Ok (a =? b)%Z
                  else Ok false);
      if stop then Ok ""
      else
        deferred next
          (do rendered <- HTML next;
           do rest <- htmlBetweenHeadingAndNextHeading_fuel fuel' heading next;
           Ok (rendered +:+ rest))
  end.

(** The number of nodes from the cursor to the end of the sibling list. *)
Definition after (r : Root) : nat :=
  match Pointer r with
  | None => 0
  | Some c => S (length (nexts c))
  end.

Definition htmlBetweenHeadingAndNextHeading (heading element : Root)
  : result string :=
  htmlBetweenHeadingAndNextHeading_fuel (S (after element)) heading element.

(** [init], lines 92 to 95: the headings, one tag after the other. *)
Definition init_headings (document : Root) : result (list Root) :=
  foldM (fun headings t =>
           do found <- soup.FindAll document t; Ok (headings ++ found))
        ["h1"; "h2"; "h3"; "h4"; "h5"; "h6"] [].

(** The anchor that [init] derives from the text of a heading. *)
Definition init_anchor (text : string) : string :=
  Go.stripWeightTitle (slugify.Marshal (Go.TrimSpace text) true).

Definition init_matches (slug : string) (h : Root) : result bool :=
  do attrs <- soup.Attrs h;
  if match attrs !! "id" with Some id => id =? slug | None => false end
  then Ok true
  else do text <- soup.Text h; Ok (init_anchor text =? slug).

(** [init], lines 96 to 111: the loop leaves at the first heading that
    matches. *)
Fixpoint init_find (slug : string) (headings : list Root)
  : result (option Root) :=
  match headings with
  | [] => Ok None
  | h :: rest =>
      do found <- init_matches slug h;
      if found then Ok (Some h) else init_find slug rest
  end.

(** [init], lines 91 to 116, for one keyword whose file was read: the new
    description, or [None] when no heading is found. *)
Definition init_description (kw : KeywordDefinition) (content : string)
  : result (option string) :=
  do document <- markdownToHTML content;
  do headings <- init_headings document;
  do found <- init_find (documentationHeadingSlug kw) headings;
  match found with
  | None => Ok None
  | Some heading =>
      do html <- htmlBetweenHeadingAndNextHeading heading heading;
      Ok (Some (html2md_ConvertString html))
  end.



(** *** The rest of the loader *)

(** The method [VariableDefinition] of a section: the address of a copy of
    the first variable of that name, or [nil]. *)
Fixpoint SectionDefinition_VariableDefinition_in
    (variables : list VariableDefinition) (name : string)
  : option VariableDefinition :=
  match variables with
  | [] => None
  | v :: rest =>
      if Name v =? name then Some v
      else SectionDefinition_VariableDefinition_in rest name
  end.

Definition SectionDefinition_VariableDefinition (s : SectionDefinition)
    (name : string) : option VariableDefinition :=
  SectionDefinition_VariableDefinition_in (Variables s) name.

Definition undocumentedGeneralSectionVariables : list VariableDefinition :=
  [mkVariable "autogenerated" "Whether this configuration was autogenerated"
              "bool" "1"].

(** [addVariableDefsOnSection] on the global [Sections], here an argument
    and a result: [Sections[i]] is replaced in place. *)
Definition addVariableDefsOnSection (h : heap)
    (Sections : list SectionDefinition) (sectionName : string)
    (variables : list VariableDefinition) : result (list SectionDefinition) :=
  foldM (fun Sections i =>
           do sec <- ofOption (Sections !! i);
           do name <- SectionDefinition_Name h sec;
           if negb (name =? sectionName) then Ok Sections
           else Ok (<[i := mkSection (Path sec) (Subsections sec)
                                     (Variables sec ++ variables)]> Sections))
        (seq 0 (length Sections)) Sections.

(** The files that [go:embed] puts into [documentationSource],
    [masterLayoutDocumentationSource] and
    [dwindleLayoutDocumentationSource]. *)
Variable documentationSource : string.
Variable masterLayoutDocumentationSource : string.
Variable dwindleLayoutDocumentationSource : string.

(** [init], lines 75 to 78: the table [Sections]. *)
Definition init_Sections (h : heap) : result (list SectionDefinition * heap) :=
  do first <- parseDocumentationMarkdown documentationSource 3 h;
  do master <- parseDocumentationMarkdownWithRootSectionName
                 masterLayoutDocumentationSource 2 "Master" (snd first);
  do dwindle <- parseDocumentationMarkdownWithRootSectionName
                  dwindleLayoutDocumentationSource 2 "Dwindle" (snd master);
  do Sections <- addVariableDefsOnSection (snd dwindle)
                   (fst first ++ fst master ++ fst dwindle) "General"
                   undocumentedGeneralSectionVariables;
  Ok (Sections, snd dwindle).

(** [documentationSources.ReadFile] ([None]: an error) and
    [filepath.Join]. *)
Variable documentationSources_ReadFile : string -> option string.
Variable filepath_Join : string -> string -> string.

(** [init], lines 81 to 116: the body of the loop over [Keywords], as the
    new value of [Keywords[i]]. *)
Definition init_keyword (kw : KeywordDefinition) : result KeywordDefinition :=
  if negb (kwDescription kw =? "") then Ok kw
  else
    match documentationSources_ReadFile
            (filepath_Join "sources" (documentationFile kw +:+ ".md")) with
    | None => Ok kw
    | Some content =>
        do found <- init_description kw content;
        match found with
        | None => Ok kw
        | Some description =>
            Ok (mkKeyword (kwName kw) (documentationFile kw)
                          (documentationHeadingSlug kw) description)
        end
    end.

(** [init], lines 80 to 117: the loop writes [Keywords[i]] in place. *)
Definition init_Keywords (Keywords : list KeywordDefinition)
  : result (list KeywordDefinition) :=
  foldM (fun Keywords i =>
           do kw <- ofOption (Keywords !! i);
           do kw' <- init_keyword kw;
           Ok (<[i := kw']> Keywords))
        (seq 0 (length Keywords)) Keywords.

(** [strings.HasPrefix]. *)
Definition HasPrefix (s prefix : string) : bool :=
  match Go.stripPrefix prefix s with Some _ => true | None => false end.

(** [strings.Replace(s, old, new, 1)] for a non-empty [old]: the first
    occurrence of [old], from the left, is replaced. *)
Fixpoint Replace1 (s old new : string) : string :=
  match Go.stripPrefix old s with
  | Some rest => new +:+ rest
  | None =>
      match s with
      | EmptyString => EmptyString
      | String c s' => String c (Replace1 s' old new)
      end
  end.

(** [init], lines 63 to 73: the replacement of the rule for links; [href]
    is what [selec.Attr("href")] returns, [None] when the attribute is
    missing (the Go value is then the empty string). *)
Definition linkReplacement (content : string) (href : option string) : string :=
  let href := default "" href in
  let href :=
    if HasPrefix href "../"
    then Replace1 href "../" "https://wiki.hyprland.org/Configuring/"
    else href in
  "[" +:+ content +:+ "](" +:+ href +:+ ")".

Definition isSeparator (c : ascii) : bool :=
  Ascii.eqb c "-" || Ascii.eqb c "_" || Ascii.eqb c ".".

(** [regexp.MustCompile(`[-_\.]`).Split(s, -1)]: the pieces between the
    separators; the empty string gives one empty piece, and a separator at
    an end of the string an empty piece there. *)
Fixpoint Split (s : string) : list string :=
  match s with
  | EmptyString => [EmptyString]
  | String c s' =>
      if isSeparator c then EmptyString :: Split s'
      else match Split s' with
           | [] => [String c EmptyString]
           | word :: words => String c word :: words
           end
  end.

(** [strings.ToUpper(word[:1])]: an ASCII letter is raised; a byte that is
    not ASCII is not valid UTF-8 by itself, and [strings.Map] writes the
    replacement rune U+FFFD for it. *)
Definition ToUpper1 (c : ascii) : string :=
  let n := Go.byte c in
  if (n <? 128)%N
  then String (if ((97 <=? n) && (n <=? 122))%N then ascii_of_N (n - 32) else c)
              EmptyString
  else String (ascii_of_N 239) (String (ascii_of_N 191)
         (String (ascii_of_N 189) EmptyString)).

(** [word[:1]] panics on an empty word. *)
Definition toPascalCase (s : string) : result string :=
  foldM (fun out word =>
           match word with
           | EmptyString => Panic
           | String c rest => Ok (out +:+ ToUpper1 c +:+ rest)
           end)
        (Split s) EmptyString.

(* =================================================================== *)
(** ** What the specification speaks of *)
(* =================================================================== *)

(** *** Document order *)

(** Every element below [n], a node before its children and before the
    siblings that follow it. *)
Fixpoint documentOrder (n : Node) : list Root :=
  (fix children (ps ns : list Node) {struct ns} : list Root :=
     match ns with
     | [] => []
     | c :: ns' =>
         (if soup.isElement c then [soup.rootAt ps c ns'] else [])
         ++ documentOrder c ++ children (c :: ps) ns'
     end) [] (Children n).

Definition below (r : Root) : list Root :=
  match Pointer r with
  | None => []
  | Some c => documentOrder (node c)
  end.

Definition named (tag : string) (r : Root) : bool := NodeValue r =? tag.

(** A cursor on an element of the tree, as [FindAll] returns them. *)
Definition onElement (r : Root) : Prop :=
  exists c, Pointer r = Some c /\ NodeValue r = Data (node c)
            /\ soup.isElement (node c) = true.

(** *** Tables *)

Definition cellText (r : Root) : string :=
  match Pointer r with
  | None => ""
  | Some c => String.concat "" (map soup.textBelow (Children (node c)))
  end.

Definition headerTexts (table : Root) : list string :=
  map cellText (List.filter (named "th") (below table)).

(** The header of the table, trimmed, is the schema of a variable table. *)
Definition qualifies (table : Root) : bool :=
  bool_decide (map Go.TrimSpace (headerTexts table)
               = ["name"; "description"; "type"; "default"]).

Definition rowVariables (row : Root) : list VariableDefinition :=
  match map cellText (List.filter (named "td") (below row)) with
  | [name; description; type; default] =>
      [mkVariable name description type default]
  | _ => []
  end.

Definition tableVariables (table : Root) : list VariableDefinition :=
  flat_map rowVariables (tail (List.filter (named "tr") (below table))).

(** No heading among the element siblings before the cursor. *)
Definition orphan (r : Root) : Prop :=
  match Pointer r with
  | None => True
  | Some c =>
      Forall (fun n => soup.isElement n = true ->
                       Go.matchHeadingTag (Data n) = false) (prevs c)
  end.

(** *** Sections as values *)

(** A section read through the store: what a consumer of [Sections]
    sees. *)
Inductive SectionView : Type :=
  mkView { vPath : list string;
           vSubsections : list SectionView;
           vVariables : list VariableDefinition }.

Fixpoint view (h : heap) (s : SectionDefinition) : SectionView :=
  match s with
  | mkSection p subsections variables =>
      mkView (deref h p) (map (view h) subsections) variables
  end.

(** The list with [Path[0]] replaced in every section and in every
    section below it, and nothing else changed. *)
Fixpoint renamed (name : string) (v : SectionView) : SectionView :=
  match v with
  | mkView path subsections variables =>
      mkView (<[0%nat := name]> path) (map (renamed name) subsections)
             variables
  end.

Definition isRootSection (h : heap) (s : SectionDefinition) : bool :=
  (length (deref h (Path s)) =? 1)%nat.

(** [s] is a section of more than one level whose [Path[0]] is the name
    of [r]. *)
Definition attachedTo (h : heap) (r s : SectionDefinition) : bool :=
  negb (isRootSection h s)
  && (default "" (deref h (Path s) !! 0%nat)
      =? default "" (last (deref h (Path r)))).

(** A root with the sections of the list that belong below it; another
    section as it is. *)
Definition withSubsections (h : heap) (flat : list SectionDefinition)
    (s : SectionDefinition) : SectionDefinition :=
  if isRootSection h s
  then mkSection (Path s) (List.filter (attachedTo h s) flat) (Variables s)
  else s.

(** The section that the loop over the tables builds from [table]. *)
Definition builtFrom (headingRootLevel : Z) (h : heap) (table : Root)
    (s : SectionDefinition) : Prop :=
  Variables s = tableVariables table
  /\ Subsections s = []
  /\ tablePath table headingRootLevel = Ok (deref h (Path s))
  /\ deref h (Path s) <> [].

(** *** Range capture *)

Definition tagLevel (tag : string) : result Z :=
  do digits <- Go.sliceFrom1 tag;
  match Go.Atoi digits with
  | None => Panic
  | Some level => Ok level
  end.

(** The element [n] is a heading, of the level of [heading]. *)
Definition boundary (heading : Root) (n : Node) : bool :=
  Go.matchHeadingTag (Data n)
  && match tagLevel (Data n), headingLevel heading with
     | Ok a, Ok b => (a =? b)%Z
     | _, _ => false
     end.

(** The element [n] is a heading as prominent as [heading], or more. *)
Definition prominent (heading : Root) (n : Node) : bool :=
  Go.matchHeadingTag (Data n)
  && match tagLevel (Data n), headingLevel heading with
     | Ok a, Ok b => (a <=? b)%Z
     | _, _ => false
     end.

Definition following (r : Root) : list Node :=
  match Pointer r with
  | None => []
  | Some c => List.filter soup.isElement (nexts c)
  end.

Fixpoint upTo (stop : Node -> bool) (ns : list Node) : list Node :=
  match ns with
  | [] => []
  | n :: ns' => if stop n then [] else n :: upTo stop ns'
  end.

Definition markup (n : Node) : string := default "" (html_Render n).

Definition joined (l : list string) : string := foldr String.append "" l.

(** The capture as the specification words it: the markup of every
    sibling up to the next heading that is as prominent or more. *)
Definition captureToProminent (heading : Root) : string :=
  joined (map markup (upTo (prominent heading) (following heading))).


(** The capture of the code over the list of the following elements. *)
Fixpoint captured (heading : Root) (ns : list Node) : result string :=
  match ns with
  | [] => if negb (DEBUG =? "") then Panic else Ok ""
  | n :: ns' =>
      if boundary heading n then Ok ""
      else
        match html_Render n with
        | None => if negb (DEBUG =? "") then Panic else Ok ""
        | Some rendered =>
            match captured heading ns' with
            | Ok rest => Ok (rendered +:+ rest)
            | Panic => Ok ""
            | OutOfFuel => OutOfFuel
            end
        end
  end.

(** *** Keyword headings *)

Definition matchesSlug (slug : string) (h : Root) : bool :=
  match init_matches slug h with
  | Ok found => found
  | _ => false
  end.

(** The headings in document order, and the first of them that
    matches. *)
Definition headingsInDocumentOrder (document : Root) : list Root :=
  List.filter isHeading (below document).

Definition firstInDocumentOrder (slug : string) (document : Root)
  : option Root :=
  List.find (matchesSlug slug) (headingsInDocumentOrder document).

(** The headings one level after the other, each level in document
    order. *)
Definition headingsByLevel (document : Root) : list Root :=
  flat_map (fun t => List.filter (named t) (below document))
           ["h1"; "h2"; "h3"; "h4"; "h5"; "h6"].

Fixpoint occurs (c : ascii) (s : string) : bool :=
  match s with
  | EmptyString => false
  | String b s' => Ascii.eqb b c || occurs c s'
  end.

(** The slug starts with [weight-], digits, [-title-]. *)
Definition weightTitlePrefixed (s : string) : bool :=
  match Go.stripPrefix "weight-" s with
  | Some (String d ds) =>
      Go.isDigit d
      && match Go.stripPrefix "-title-"
                 ((fix skip (t : string) : string :=
                     match t with
                     | String b t' => if Go.isDigit b then skip t' else t
                     | EmptyString => t
                     end) ds) with
         | Some _ => true
         | None => false
         end
  | _ => false
  end.

(** *** The headings before a table *)

Definition nodeText (n : Node) : string :=
  String.concat "" (map soup.textBelow (Children n)).

Definition headingNode (n : Node) : bool :=
  soup.isElement n && Go.matchHeadingTag (Data n).

(** The first heading element of [ps], the siblings before a cursor read
    from the nearest one, as the cursor on it; the error root when there is
    none. [ns] are the siblings after the ones read. *)
Fixpoint nearestHeading (ps ns : list Node) : Root :=
  match ps with
  | [] => soup.errorRoot
  | p :: ps' =>
      if headingNode p then soup.rootAt ps' p ns
      else nearestHeading ps' (p :: ns)
  end.

(** The titles of the heading elements of [ps], from the nearest one back
    to the first whose level is at most [headingRootLevel], in the order of
    the document; [None] when no heading of such a level is there. *)
Fixpoint pathBack (headingRootLevel : Z) (ps : list Node)
  : option (list string) :=
  match ps with
  | [] => None
  | p :: ps' =>
      if headingNode p
      then match tagLevel (Data p) with
           | Ok level =>
               if (level <=? headingRootLevel)%Z then Some [nodeText p]
               else match pathBack headingRootLevel ps' with
                    | Some path => Some (path ++ [nodeText p])
                    | None => None
                    end
           | _ => None
           end
      else pathBack headingRootLevel ps'
  end.

(** The serializer returns on every element of the list. *)
Definition renders (ps : list Node) : Prop :=
  Forall (fun p => soup.isElement p = true -> is_Some (html_Render p)) ps.

(** *** Loops that replace the elements in place *)

Fixpoint mapM {A B : Type} (f : A -> result B) (l : list A) : result (list B) :=
  match l with
  | [] => Ok []
  | x :: l' => do y <- f x; do ys <- mapM f l'; Ok (y :: ys)
  end.

(** *** Names with separators *)

Fixpoint hasSeparator (s : string) : bool :=
  match s with
  | EmptyString => false
  | String c s' => isSeparator c || hasSeparator s'
  end.

Definition startsWithSeparator (s : string) : bool :=
  match s with
  | String c _ => isSeparator c
  | EmptyString => false
  end.

Fixpoint endsWithSeparator (s : string) : bool :=
  match s with
  | EmptyString => false
  | String c EmptyString => isSeparator c
  | String _ s' => endsWithSeparator s'
  end.

Fixpoint adjacentSeparators (s : string) : bool :=
  match s with
  | String c (String d _ as s') =>
      isSeparator c && isSeparator d || adjacentSeparators s'
  | _ => false
  end.

(** Reading [s] from a place that is the start of a word when [atStart]:
    some word from there on is empty. *)
Fixpoint emptyWordFrom (atStart : bool) (s : string) : bool :=
  match s with
  | EmptyString => atStart
  | String c s' =>
      if isSeparator c then atStart || emptyWordFrom true s'
      else emptyWordFrom false s'
  end.

(* =================================================================== *)
(** ** Results and loops *)
(* =================================================================== *)

Lemma bind_Ok {A B : Type} (m : result A) (k : A -> result B) (b : B) :
  bind m k = Ok b -> exists a, m = Ok a /\ k a = Ok b.
Proof. destruct m; simpl; intros H; try discriminate. eauto. Qed.

Lemma ofOption_Ok {A : Type} (o : option A) (a : A) :
  ofOption o = Ok a -> o = Some a.
Proof. destruct o; simpl; congruence. Qed.

Lemma ofOption_fuel {A : Type} (o : option A) : ofOption o <> OutOfFuel.
Proof. destruct o; discriminate. Qed.

Lemma foldM_app {A B : Type} (body : A -> B -> result A) (l1 l2 : list B)
    (acc : A) :
  foldM body (l1 ++ l2) acc = do a <- foldM body l1 acc; foldM body l2 a.
Proof.
  revert acc. induction l1 as [|x l1 IH]; intros acc; simpl; [reflexivity|].
  destruct (body acc x); simpl; auto.
Qed.

(** A loop whose body never runs out of fuel does not either. *)
Lemma foldM_fuel {A B : Type} (body : A -> B -> result A) (l : list B) :
  (forall acc x, body acc x <> OutOfFuel) ->
  forall acc, foldM body l acc <> OutOfFuel.
Proof.
  intros Hbody. induction l as [|x l IH]; intros acc; simpl; [discriminate|].
  destruct (body acc x) eqn:E; simpl; auto; try discriminate.
  now apply Hbody in E.
Qed.

(** A loop panics when its body panics on one of the elements, whatever
    the state then is, and never runs out of fuel. *)
Lemma foldM_Panic {A B : Type} (body : A -> B -> result A) (l : list B)
    (x : B) :
  (forall acc y, y ∈ l -> body acc y <> OutOfFuel) ->
  x ∈ l -> (forall acc, body acc x = Panic) ->
  forall acc, foldM body l acc = Panic.
Proof.
  intros Hfuel Hin Hx. induction l as [|y l IH]; intros acc.
  - inversion Hin.
  - simpl. apply elem_of_cons in Hin. destruct Hin as [->|Hin].
    + now rewrite Hx.
    + pose proof (Hfuel acc y (list_elem_of_here _ _)) as Hy.
      destruct (body acc y); simpl; try congruence.
      apply IH; auto. intros acc' z Hz. apply Hfuel. now right.
Qed.

(* =================================================================== *)
(** ** The tree and the cursor *)
(* =================================================================== *)

Lemma Node_nested_ind (P : Node -> Prop) :
  (forall t d a cs, Forall P cs -> P (mkNode t d a cs)) ->
  forall n, P n.
Proof.
  intros step. fix IH 1. intros [t d a cs]. apply step.
  induction cs as [|c cs IHcs]; constructor; [apply IH | apply IHcs].
Qed.

Lemma onElement_rootAt ps n ns :
  soup.isElement n = true -> onElement (soup.rootAt ps n ns).
Proof. intros H. exists (mkCursor ps n ns). auto. Qed.

Lemma documentOrder_onElement n : Forall onElement (documentOrder n).
Proof.
  induction n as [t d a cs IH] using Node_nested_ind. simpl.
  generalize (@nil Node). induction IH as [|c cs Hc _ IHcs]; intros ps.
  - constructor.
  - rewrite !Forall_app. split; [|split]; auto.
    destruct (soup.isElement c) eqn:E; constructor; auto using onElement_rootAt.
Qed.

Lemma findAllofem_documentOrder tag n :
  soup.findAllofem tag n = List.filter (named tag) (documentOrder n).
Proof.
  induction n as [t d a cs IH] using Node_nested_ind. simpl.
  generalize (@nil Node). induction IH as [|c cs Hc _ IHcs]; intros ps.
  - reflexivity.
  - rewrite !List.filter_app, Hc, IHcs. f_equal.
    destruct (soup.isElement c); simpl; [|reflexivity].
    unfold named at 1. simpl. now destruct (Data c =? tag).
Qed.

Lemma FindAll_below r tag :
  onElement r \/ (exists c, Pointer r = Some c) ->
  soup.FindAll r tag = Ok (List.filter (named tag) (below r)).
Proof.
  intros H. assert (exists c, Pointer r = Some c) as [c Hc].
  { destruct H as [(c & Hc & _)|H]; eauto. }
  unfold soup.FindAll, below. rewrite Hc. simpl.
  now rewrite findAllofem_documentOrder.
Qed.

Lemma below_onElement r : Forall onElement (below r).
Proof.
  unfold below. destruct (Pointer r); [apply documentOrder_onElement|constructor].
Qed.

Lemma filter_onElement (p : Root -> bool) r :
  Forall onElement (List.filter p (below r)).
Proof.
  apply Forall_forall. intros x Hx. apply list_elem_of_In, List.filter_In in Hx.
  destruct Hx as [Hx _]. apply list_elem_of_In in Hx.
  revert x Hx. apply Forall_forall, below_onElement.
Qed.

Lemma FullText_cellText r : onElement r -> soup.FullText r = Ok (cellText r).
Proof.
  intros (c & Hc & _). unfold soup.FullText, cellText. now rewrite Hc.
Qed.

Lemma bind_fuel {A B : Type} (m : result A) (k : A -> result B) :
  m <> OutOfFuel -> (forall a, k a <> OutOfFuel) -> bind m k <> OutOfFuel.
Proof. destruct m; simpl; auto. Qed.

Lemma HTML_fuel r : HTML r <> OutOfFuel.
Proof. unfold HTML. apply bind_fuel; auto using @ofOption_fuel. Qed.

Lemma HTML_errorRoot : HTML soup.errorRoot = Panic.
Proof. reflexivity. Qed.

Lemma debug_fuel m : m <> OutOfFuel -> debug m <> OutOfFuel.
Proof. intros H. apply bind_fuel; auto; discriminate. Qed.

Lemma FullText_fuel r : soup.FullText r <> OutOfFuel.
Proof. apply bind_fuel; auto using @ofOption_fuel; discriminate. Qed.

Lemma FindAll_fuel r tag : soup.FindAll r tag <> OutOfFuel.
Proof. apply bind_fuel; auto using @ofOption_fuel; discriminate. Qed.

(** [FindPrevElementSibling] returns the error root, or the nearest
    element among the siblings before the cursor. *)
Lemma prevElement_cases ps ns :
  soup.prevElement ps ns = soup.errorRoot
  /\ Forall (fun n => soup.isElement n = false) ps
  \/ exists skipped p ps' ns',
      soup.prevElement ps ns = soup.rootAt ps' p ns'
      /\ soup.isElement p = true /\ ps = skipped ++ p :: ps'.
Proof.
  revert ns. induction ps as [|p ps IH]; intros ns; simpl.
  - left. split; [reflexivity|constructor].
  - destruct (soup.isElement p) eqn:E.
    + right. exists [], p, ps, ns. auto.
    + destruct (IH (p :: ns)) as [[-> H]|(sk & q & ps' & ns' & -> & Hq & ->)].
      * left. split; [reflexivity|]. constructor; auto.
      * right. exists (p :: sk), q, ps', ns'. auto.
Qed.

Lemma prevElement_before ps ns : before (soup.prevElement ps ns) <= length ps.
Proof.
  destruct (prevElement_cases ps ns) as [[-> _]|(sk & p & ps' & ns' & -> & _ & ->)];
    unfold before; simpl; [lia|]. rewrite length_app. simpl. lia.
Qed.

Lemma FindPrevElementSibling_before r prev :
  soup.FindPrevElementSibling r = Ok prev -> before prev < before r.
Proof.
  unfold soup.FindPrevElementSibling, before at 2.
  destruct (Pointer r) as [c|]; simpl; [|discriminate].
  intros [= <-]. pose proof (prevElement_before (prevs c) (node c :: nexts c)). lia.
Qed.

Lemma FindPrevElementSibling_fuel r : soup.FindPrevElementSibling r <> OutOfFuel.
Proof. apply bind_fuel; auto using @ofOption_fuel; discriminate. Qed.

(** *** The backward walk *)

Lemma backtrack_fuel_enough fuel element :
  before element < fuel ->
  backtrackToNearestHeader_fuel fuel element <> OutOfFuel.
Proof.
  revert element. induction fuel as [|fuel IH]; intros element Hlt; [lia|].
  simpl. apply bind_fuel.
  { destruct (negb _); [apply debug_fuel, HTML_fuel|discriminate]. }
  intros _. destruct (Go.matchHeadingTag _).
  - apply bind_fuel; [apply debug_fuel, HTML_fuel|discriminate].
  - destruct (soup.FindPrevElementSibling element) as [prev| |] eqn:E; simpl;
      try discriminate.
    + apply bind_fuel; [apply debug_fuel, HTML_fuel|]. intros _. apply IH.
      apply FindPrevElementSibling_before in E. lia.
    + now apply FindPrevElementSibling_fuel in E.
Qed.

(** More fuel than the walk needs does not change its result. *)
Lemma backtrack_fuel_more fuel fuel' element :
  before element < fuel -> before element < fuel' ->
  backtrackToNearestHeader_fuel fuel element
  = backtrackToNearestHeader_fuel fuel' element.
Proof.
  revert fuel' element.
  induction fuel as [|fuel IH]; intros [|fuel'] element H1 H2; try lia.
  simpl. destruct (if negb _ then _ else _); simpl; try reflexivity.
  destruct (Go.matchHeadingTag _); [reflexivity|].
  destruct (soup.FindPrevElementSibling element) as [prev| |] eqn:E; simpl;
    try reflexivity.
  destruct (debug (HTML prev)); simpl; try reflexivity.
  apply FindPrevElementSibling_before in E. apply IH; lia.
Qed.

Lemma backtrack_fuel_heading fuel element h :
  backtrackToNearestHeader_fuel fuel element = Ok h ->
  isHeading h = true /\ before h <= before element.
Proof.
  revert element. induction fuel as [|fuel IH]; intros element; [discriminate|].
  simpl. intros H. apply bind_Ok in H as (_ & _ & H).
  destruct (Go.matchHeadingTag (NodeValue element)) eqn:Etag.
  - apply bind_Ok in H as (_ & _ & [= <-]). split; [exact Etag|lia].
  - apply bind_Ok in H as (prev & Eprev & H).
    apply bind_Ok in H as (_ & _ & H).
    apply IH in H as [Hh Hb]. split; [exact Hh|].
    apply FindPrevElementSibling_before in Eprev. lia.
Qed.

(** The tag of a heading is [h] and a digit from 1 to 6, and its level
    is read without an error. *)
Lemma matchHeadingTag_level tag :
  Go.matchHeadingTag tag = true ->
  exists digits level,
    Go.sliceFrom1 tag = Ok digits /\ Go.Atoi digits = Some level
    /\ (1 <= level <= 6)%Z.
Proof.
  destruct tag as [|c [|d [|e tag]]]; simpl; try discriminate.
  - destruct c as [[] [] [] [] [] [] [] []]; discriminate.
  - destruct c as [[] [] [] [] [] [] [] []]; try discriminate.
    intros H. exists (String d ""). 
    destruct d as [[] [] [] [] [] [] [] []]; try discriminate H;
      eexists; (split; [reflexivity|]); (split; [vm_compute; reflexivity|lia]).
  - destruct c as [[] [] [] [] [] [] [] []]; discriminate.
Qed.

Lemma headingLevel_tagLevel r : headingLevel r = tagLevel (NodeValue r).
Proof. reflexivity. Qed.

Lemma isHeading_level h :
  isHeading h = true -> exists level, headingLevel h = Ok level /\ (1 <= level <= 6)%Z.
Proof.
  intros H. apply matchHeadingTag_level in H as (digits & level & E1 & E2 & Hl).
  exists level. unfold headingLevel. rewrite E1. simpl. rewrite E2. auto.
Qed.

Lemma bind_fuel_Ok {A B : Type} (m : result A) (k : A -> result B) :
  m <> OutOfFuel -> (forall a, m = Ok a -> k a <> OutOfFuel) ->
  bind m k <> OutOfFuel.
Proof. destruct m; simpl; auto. Qed.

(** *** The path of a table *)

Lemma tablePath_fuel_enough fuel table headingRootLevel :
  before table < fuel ->
  tablePath_fuel fuel table headingRootLevel <> OutOfFuel.
Proof.
  revert table. induction fuel as [|fuel IH]; intros table Hlt; [lia|].
  simpl. apply bind_fuel_Ok; [apply backtrack_fuel_enough; lia|].
  intros header Hheader. apply backtrack_fuel_heading in Hheader as [_ Hb].
  apply bind_fuel; [destruct (NodeValue header); discriminate|]. intros digits.
  apply bind_fuel; [apply ofOption_fuel|]. intros level.
  destruct (level <=? headingRootLevel)%Z.
  - apply bind_fuel; [apply FullText_fuel|discriminate].
  - apply bind_fuel_Ok; [apply FindPrevElementSibling_fuel|].
    intros prev Hprev. apply FindPrevElementSibling_before in Hprev.
    apply bind_fuel; [apply IH; lia|]. intros path.
    apply bind_fuel; [apply FullText_fuel|discriminate].
Qed.

Lemma tablePath_fuel_nonempty fuel table headingRootLevel path :
  tablePath_fuel fuel table headingRootLevel = Ok path -> path <> [].
Proof.
  destruct fuel as [|fuel]; [discriminate|]. simpl. intros H.
  apply bind_Ok in H as (header & _ & H).
  apply bind_Ok in H as (digits & _ & H).
  apply bind_Ok in H as (level & _ & H).
  destruct (level <=? headingRootLevel)%Z.
  - apply bind_Ok in H as (text & _ & [= <-]). discriminate.
  - apply bind_Ok in H as (prev & _ & H).
    apply bind_Ok in H as (p & _ & H).
    apply bind_Ok in H as (text & _ & [= <-]). now destruct p.
Qed.

(** The walk from an element that no heading precedes, and that is not a
    heading itself, ends in a panic: past the first sibling there is no
    node to render. *)
Lemma backtrack_orphan fuel element :
  orphan element -> isHeading element = false -> before element < fuel ->
  backtrackToNearestHeader_fuel fuel element = Panic.
Proof.
  revert element. induction fuel as [|fuel IH]; intros element Ho Hh Hlt; [lia|].
  simpl. destruct (if negb _ then _ else _) as [[]| |] eqn:E1; simpl;
    try reflexivity.
  2:{ exfalso. destruct (negb _); [|discriminate].
      revert E1. apply debug_fuel, HTML_fuel. }
  fold (isHeading element). rewrite Hh.
  unfold soup.FindPrevElementSibling. unfold orphan, before in *.
  destruct (Pointer element) as [c|]; simpl; [|reflexivity].
  destruct (prevElement_cases (prevs c) (node c :: nexts c))
    as [[-> _]|(sk & p & ps' & ns' & -> & Hp & Eq)]; [reflexivity|].
  rewrite Eq in Ho. apply Forall_app in Ho as [_ Ho].
  apply Forall_cons in Ho as [Hp' Ho].
  cbn [bind].
  destruct (debug (HTML (soup.rootAt ps' p ns'))) as [[]| |] eqn:E2;
    cbn [bind]; try reflexivity.
  2:{ exfalso. revert E2. apply debug_fuel, HTML_fuel. }
  apply IH; simpl; auto.
  rewrite Eq, length_app in Hlt. simpl in Hlt. lia.
Qed.

Lemma tablePath_orphan table headingRootLevel :
  orphan table -> isHeading table = false ->
  tablePath table headingRootLevel = Panic.
Proof.
  intros Ho Hh. unfold tablePath. simpl. unfold backtrackToNearestHeader.
  rewrite backtrack_orphan; auto.
Qed.

(** *** The rows and the header of a table *)

Lemma foldM_cells (l : list Root) (acc : list string) :
  Forall onElement l ->
  foldM (fun cells cell => do text <- soup.FullText cell; Ok (cells ++ [text]))
        l acc
  = Ok (acc ++ map cellText l).
Proof.
  intros H. revert acc. induction H as [|r l Hr _ IH]; intros acc; simpl.
  - now rewrite app_nil_r.
  - rewrite (FullText_cellText _ Hr). simpl. rewrite IH.
    now rewrite <- app_assoc.
Qed.

Lemma tableHeaderCells_texts table :
  onElement table -> tableHeaderCells table = Ok (headerTexts table).
Proof.
  intros H. unfold tableHeaderCells. rewrite FindAll_below by auto. simpl.
  rewrite foldM_cells by apply filter_onElement. reflexivity.
Qed.

Lemma arraysEqual_from_trimmed (a b skipped : list string) :
  length a = length b ->
  arraysEqual_from (length skipped) a (skipped ++ b)
  = Ok (bool_decide (map Go.TrimSpace a = map Go.TrimSpace b)).
Proof.
  revert b skipped. induction a as [|v a IH]; intros [|w b] skipped Hlen;
    try discriminate; simpl.
  - reflexivity.
  - rewrite lookup_app_r, Nat.sub_diag by lia. simpl.
    destruct (Go.TrimSpace v =? Go.TrimSpace w) eqn:E; simpl.
    + apply String.eqb_eq in E.
      replace (skipped ++ w :: b) with ((skipped ++ [w]) ++ b)
        by now rewrite <- app_assoc.
      replace (S (length skipped)) with (length (skipped ++ [w]))
        by (rewrite length_app; simpl; lia).
      rewrite IH by (simpl in Hlen; lia). f_equal. rewrite E.
      apply bool_decide_ext. split; [congruence|]. now intros [= ->].
    + apply String.eqb_neq in E. f_equal. symmetry.
      apply bool_decide_eq_false. now intros [= ? _].
Qed.

Lemma arraysEqual_trimmed (a b : list string) :
  arraysEqual a b = Ok (bool_decide (map Go.TrimSpace a = map Go.TrimSpace b)).
Proof.
  unfold arraysEqual. destruct (length a =? length b)%nat eqn:E; simpl.
  - apply Nat.eqb_eq in E. now apply (arraysEqual_from_trimmed a b []).
  - apply Nat.eqb_neq in E. f_equal. symmetry. apply bool_decide_eq_false.
    intros H. apply (f_equal length) in H. rewrite !length_map in H. lia.
Qed.

Lemma rowVariable_rowVariables variables row :
  onElement row ->
  rowVariable variables row = Ok (variables ++ rowVariables row).
Proof.
  intros H. unfold rowVariable, rowVariables.
  rewrite FindAll_below by auto. simpl.
  pose proof (filter_onElement (named "td") row) as Hcells.
  destruct (List.filter (named "td") (below row)) as [|c0 [|c1 [|c2 [|c3 [|c4 cs]]]]];
    simpl; try now rewrite app_nil_r.
  repeat (apply Forall_cons in Hcells as [?%FullText_cellText Hcells]).
  repeat match goal with E : soup.FullText _ = _ |- _ => rewrite E; clear E end.
  reflexivity.
Qed.

Lemma foldM_rowVariable (rows : list Root) variables :
  Forall onElement rows ->
  foldM rowVariable rows variables = Ok (variables ++ flat_map rowVariables rows).
Proof.
  intros H. revert variables.
  induction H as [|r rows Hr _ IH]; intros variables; simpl.
  - now rewrite app_nil_r.
  - rewrite rowVariable_rowVariables by auto. simpl. rewrite IH.
    now rewrite <- app_assoc.
Qed.

(** One turn of the loop over the tables. *)
Lemma tableSection_cases headingRootLevel st table :
  onElement table ->
  tableSection headingRootLevel st table
  = if qualifies table
    then do path <- tablePath table headingRootLevel;
         match List.filter (named "tr") (below table) with
         | [] => Panic
         | _ :: _ =>
             Ok (fst st ++ [path],
                 snd st ++ [mkSection (length (fst st)) []
                                      (tableVariables table)])
         end
    else Ok st.
Proof.
  intros H. unfold tableSection. rewrite tableHeaderCells_texts by auto. simpl.
  rewrite arraysEqual_trimmed.
  change (map Go.TrimSpace ["name"; "description"; "type"; "default"])
    with ["name"; "description"; "type"; "default"].
  fold (qualifies table). cbn [bind].
  destruct (qualifies table); simpl; [|reflexivity].
  destruct (tablePath table headingRootLevel) as [path| |]; simpl; try reflexivity.
  rewrite FindAll_below by auto. simpl. unfold tableVariables.
  pose proof (filter_onElement (named "tr") table) as Hrows.
  destruct (List.filter (named "tr") (below table)) as [|r rows]; simpl;
    [reflexivity|].
  apply Forall_cons in Hrows as [_ Hrows].
  now rewrite foldM_rowVariable.
Qed.

Lemma tableSection_fuel headingRootLevel st table :
  onElement table -> tableSection headingRootLevel st table <> OutOfFuel.
Proof.
  intros H. rewrite tableSection_cases by auto.
  destruct (qualifies table); [|discriminate].
  apply bind_fuel; [apply tablePath_fuel_enough; lia|].
  intros path. destruct (List.filter _ _); discriminate.
Qed.

(** *** The loop over the tables *)

Lemma deref_app_l (h more : heap) (l : loc) :
  l < length h -> deref (h ++ more) l = deref h l.
Proof. intros H. unfold deref. now rewrite lookup_app_l. Qed.

Lemma deref_nonempty_lt (h : heap) (l : loc) : deref h l <> [] -> l < length h.
Proof.
  unfold deref. intros H. destruct (h !! l) eqn:E; [|now simpl in H].
  now apply lookup_lt_Some in E.
Qed.

Lemma builtFrom_app headingRootLevel h more table s :
  builtFrom headingRootLevel h table s ->
  builtFrom headingRootLevel (h ++ more) table s.
Proof.
  intros (Hv & Hs & Hp & Hn). pose proof (deref_nonempty_lt _ _ Hn).
  unfold builtFrom. rewrite deref_app_l by auto. auto.
Qed.

Lemma tables_loop headingRootLevel (tables : list Root) :
  Forall onElement tables ->
  forall h sections h' sections',
    foldM (tableSection headingRootLevel) tables (h, sections)
    = Ok (h', sections') ->
    exists paths flat,
      h' = h ++ paths /\ sections' = sections ++ flat
      /\ Forall2 (builtFrom headingRootLevel h')
                 (List.filter qualifies tables) flat.
Proof.
  induction 1 as [|table tables Htable _ IH]; intros h sections h' sections'.
  - simpl. intros [= <- <-]. exists [], []. rewrite !app_nil_r. auto.
  - simpl. rewrite tableSection_cases by auto.
    destruct (qualifies table) eqn:Eq; simpl.
    + destruct (tablePath table headingRootLevel) as [path| |] eqn:Epath;
        simpl; try discriminate.
      destruct (List.filter (named "tr") (below table)) as [|r rows] eqn:Erows;
        simpl; try discriminate.
      intros H. apply IH in H as (paths & flat & -> & -> & Hflat).
      rewrite <- (app_assoc h [path] paths) in Hflat |- *.
      rewrite <- (app_assoc sections [_] flat).
      exists (path :: paths), (mkSection (length h) [] (tableVariables table) :: flat).
      split; [reflexivity|]. split; [reflexivity|].
      constructor; [|exact Hflat].
      assert (deref (h ++ [path] ++ paths) (length h) = path) as Hd.
      { unfold deref. rewrite lookup_app_r, Nat.sub_diag by lia. reflexivity. }
      unfold builtFrom. cbn [Path Variables Subsections]. rewrite Hd.
      repeat split; auto.
      eapply tablePath_fuel_nonempty, Epath.
    + intros H. apply IH in H as (paths & flat & -> & -> & Hflat). eauto.
Qed.

(** *** Attaching the subsections *)

Lemma withSubsections_Path h flat s : Path (withSubsections h flat s) = Path s.
Proof. unfold withSubsections. now destruct (isRootSection h s). Qed.

Lemma withSubsections_Variables h flat s :
  Variables (withSubsections h flat s) = Variables s.
Proof. unfold withSubsections. now destruct (isRootSection h s). Qed.

Lemma attachedTo_Path h r s s' : Path s = Path s' -> attachedTo h r s = attachedTo h r s'.
Proof. unfold attachedTo, isRootSection. now intros ->. Qed.

Lemma attachedTo_not_root h r s :
  attachedTo h r s = true -> isRootSection h s = false.
Proof. unfold attachedTo. now destruct (isRootSection h s). Qed.

Lemma filter_attachedTo_withSubsections h flat r (l : list SectionDefinition) :
  List.filter (attachedTo h r) (map (withSubsections h flat) l)
  = List.filter (attachedTo h r) l.
Proof.
  induction l as [|s l IH]; simpl; [reflexivity|].
  rewrite (attachedTo_Path h r _ s) by apply withSubsections_Path.
  destruct (attachedTo h r s) eqn:E; [|exact IH].
  rewrite IH. f_equal. unfold withSubsections.
  now rewrite (attachedTo_not_root _ _ _ E).
Qed.

Lemma filter_attachedTo_partly h flat r (done rest : list SectionDefinition) :
  List.filter (attachedTo h r) (map (withSubsections h flat) done ++ rest)
  = List.filter (attachedTo h r) (done ++ rest).
Proof. now rewrite !List.filter_app, filter_attachedTo_withSubsections. Qed.

Lemma AttachSubsections_filter h s (sections : list SectionDefinition) :
  Forall (fun x => deref h (Path x) <> []) sections ->
  deref h (Path s) <> [] ->
  AttachSubsections h s sections
  = Ok (mkSection (Path s) (List.filter (attachedTo h s) sections) (Variables s)).
Proof.
  intros Hall Hs. unfold AttachSubsections.
  match goal with
  | |- context [foldM ?f _ _] => set (body := f)
  end.
  assert (forall acc, foldM body sections acc
                      = Ok (acc ++ List.filter (attachedTo h s) sections))
    as ->; [|reflexivity].
  induction Hall as [|x l Hx _ IH]; intros acc; simpl.
  - now rewrite app_nil_r.
  - unfold body at 1. cbn beta.
    unfold attachedTo at 1, isRootSection, SectionDefinition_Name.
    destruct (length (deref h (Path x)) =? 1)%nat; simpl; [apply IH|].
    destruct (deref h (Path x)) as [|first path] eqn:Ex; [contradiction|].
    simpl. apply last_is_Some in Hs as [name Hname]. rewrite Hname. simpl.
    destruct (first =? name); simpl; rewrite IH; [|reflexivity].
    now rewrite <- app_assoc.
Qed.

Lemma attachLoop_from h flat k : forall i,
  Forall (fun x => deref h (Path x) <> []) flat ->
  i + k = length flat ->
  foldM (fun sections i =>
           do section <- ofOption (sections !! i);
           if (length (deref h (Path section)) =? 1)%nat
           then do s <- AttachSubsections h section sections;
                Ok (<[i := s]> sections)
           else Ok sections)
        (seq i k)
        (map (withSubsections h flat) (take i flat) ++ drop i flat)
  = Ok (map (withSubsections h flat) flat).
Proof.
  induction k as [|k IH]; intros i Hall Hlen; simpl.
  - rewrite take_ge, drop_ge, app_nil_r by lia. reflexivity.
  - destruct (lookup_lt_is_Some_2 flat i) as [s Hs]; [lia|].
    assert (length (map (withSubsections h flat) (take i flat)) = i) as Hi.
    { rewrite length_map, length_take. lia. }
    rewrite lookup_app_r, Hi, Nat.sub_diag by lia.
    rewrite (drop_S _ _ _ Hs). simpl.
    assert (map (withSubsections h flat) (take (S i) flat) ++ drop (S i) flat
            = <[i := withSubsections h flat s]>
                (map (withSubsections h flat) (take i flat) ++ s :: drop (S i) flat))
      as Hnext.
    { rewrite (take_S_r _ _ _ Hs), map_app. simpl. rewrite <- app_assoc. simpl.
      rewrite insert_app_r_alt, Hi, Nat.sub_diag by lia. reflexivity. }
    fold (isRootSection h s). destruct (isRootSection h s) eqn:Er.
    + rewrite AttachSubsections_filter.
      * simpl. rewrite filter_attachedTo_partly.
        rewrite <- (drop_S _ _ _ Hs), take_drop.
        rewrite <- (IH (S i)) by (auto; lia). f_equal.
        rewrite Hnext, (drop_S _ _ _ Hs). f_equal.
        unfold withSubsections. now rewrite Er.
      * apply Forall_app. split.
        -- apply Forall_forall. intros x Hx. apply list_elem_of_fmap in Hx as (y & -> & Hy).
           rewrite withSubsections_Path.
           apply elem_of_take in Hy as (j & Hy & _).
           eapply (proj1 (Forall_lookup _ _) Hall), Hy.
        -- rewrite <- (drop_S _ _ _ Hs). apply Forall_drop, Hall.
      * eapply (proj1 (Forall_lookup _ _) Hall), Hs.
    + cbn [bind]. rewrite <- (IH (S i)) by (auto; lia). f_equal.
      rewrite Hnext. symmetry. apply list_insert_id.
      rewrite lookup_app_r, Hi, Nat.sub_diag by lia. simpl.
      unfold withSubsections. now rewrite Er.
Qed.

Lemma attachLoop_map h flat :
  Forall (fun x => deref h (Path x) <> []) flat ->
  attachLoop h flat = Ok (map (withSubsections h flat) flat).
Proof.
  intros H. unfold attachLoop.
  now rewrite <- (attachLoop_from h flat (length flat) 0) by auto.
Qed.

(** *** The whole pass *)

Lemma FindAll_Ok r tag found :
  soup.FindAll r tag = Ok found ->
  found = List.filter (named tag) (below r) /\ Forall onElement found.
Proof.
  unfold soup.FindAll. intros H. apply bind_Ok in H as (c & Hc & [= <-]).
  apply ofOption_Ok in Hc. unfold below. rewrite Hc.
  rewrite findAllofem_documentOrder. split; [reflexivity|].
  pose proof (filter_onElement (named tag) r) as H. unfold below in H.
  now rewrite Hc in H.
Qed.

Lemma parse_Ok source headingRootLevel h sections h' :
  parseDocumentationMarkdown source headingRootLevel h = Ok (sections, h') ->
  exists document tables flat,
    markdownToHTML source = Ok document
    /\ soup.FindAll document "table" = Ok tables
    /\ Forall2 (builtFrom headingRootLevel h')
               (List.filter qualifies tables) flat
    /\ sections = map (withSubsections h' flat) flat.
Proof.
  unfold parseDocumentationMarkdown. intros H.
  apply bind_Ok in H as (document & Hdoc & H).
  apply bind_Ok in H as (tables & Htables & H).
  apply bind_Ok in H as ([h1 flat] & Hloop & H).
  apply bind_Ok in H as (attached & Hattach & [= <- <-]).
  exists document, tables, flat. simpl in *.
  destruct (FindAll_Ok _ _ _ Htables) as [_ Hel].
  apply (tables_loop _ _ Hel) in Hloop as (paths & flat' & -> & Hflat & Hbuilt).
  simpl in Hflat. subst flat'. repeat split; auto.
  rewrite attachLoop_map in Hattach; [congruence|].
  clear Hattach. induction Hbuilt as [|t s ts ss (_ & _ & _ & Hn) _ IH];
    constructor; auto.
Qed.

Lemma builtFrom_withSubsections headingRootLevel h flat table s :
  builtFrom headingRootLevel h table s ->
  Variables (withSubsections h flat s) = tableVariables table
  /\ tablePath table headingRootLevel
     = Ok (deref h (Path (withSubsections h flat s))).
Proof.
  intros (Hv & _ & Hp & _).
  now rewrite withSubsections_Variables, withSubsections_Path.
Qed.

(** C5. When the pass over a document returns, its sections are, in the
    order of the document, the sections of the tables whose trimmed
    header cells are name, description, type, default, one section for
    each such table and none for another table; the variables of a
    section are, in order, the rows after the first that have exactly
    four cells, the four texts being the name, the description, the type
    and the default; the other rows are left out one by one. *)
Theorem table_sections source headingRootLevel h sections h' :
  parseDocumentationMarkdown source headingRootLevel h = Ok (sections, h') ->
  exists document tables,
    markdownToHTML source = Ok document
    /\ soup.FindAll document "table" = Ok tables
    /\ Forall2 (fun table s =>
                  Variables s = tableVariables table
                  /\ tablePath table headingRootLevel
                     = Ok (deref h' (Path s)))
               (List.filter qualifies tables) sections.
Proof.
  intros H. apply parse_Ok in H as (document & tables & flat & Hd & Ht & Hb & ->).
  exists document, tables. repeat split; auto.
  apply Forall2_fmap_r. eapply Forall2_impl; [exact Hb|].
  intros table s. apply builtFrom_withSubsections.
Qed.

(** C6. A table with the schema of a variable table that no heading
    precedes among its siblings makes the whole pass panic: no list of
    sections is returned, whatever the other tables are. *)
Theorem orphan_table_fatal source headingRootLevel h document tables table :
  markdownToHTML source = Ok document ->
  soup.FindAll document "table" = Ok tables ->
  table ∈ tables ->
  qualifies table = true ->
  orphan table ->
  parseDocumentationMarkdown source headingRootLevel h = Panic.
Proof.
  intros Hd Ht Hin Hq Ho. unfold parseDocumentationMarkdown.
  rewrite Hd. simpl. rewrite Ht. simpl.
  destruct (FindAll_Ok _ _ _ Ht) as [Hnamed Hel].
  rewrite (foldM_Panic _ tables table); auto.
  - intros acc y Hy. apply tableSection_fuel.
    exact (proj1 (Forall_forall _ _) Hel y Hy).
  - intros acc. rewrite tableSection_cases
      by exact (proj1 (Forall_forall _ _) Hel table Hin).
    rewrite Hq, tablePath_orphan; auto.
    rewrite Hnamed in Hin. apply list_elem_of_In, List.filter_In in Hin as [_ Hn].
    unfold named in Hn. apply String.eqb_eq in Hn.
    unfold isHeading. now rewrite Hn.
Qed.

(** C9. An element that the backward walk returns has a heading tag, the
    letter h and a digit from 1 to 6; the conversion of that digit, in
    the path resolver and in [headingLevel], returns the level without
    an error. *)
Theorem backtrack_returns_heading element h :
  backtrackToNearestHeader element = Ok h ->
  isHeading h = true
  /\ exists digits level,
      Go.sliceFrom1 (NodeValue h) = Ok digits
      /\ Go.Atoi digits = Some level
      /\ (1 <= level <= 6)%Z
      /\ headingLevel h = Ok level.
Proof.
  intros H. apply backtrack_fuel_heading in H as [Hh _]. split; [exact Hh|].
  destruct (matchHeadingTag_level _ Hh) as (digits & level & E1 & E2 & Hl).
  exists digits, level. repeat split; auto; try lia.
  unfold headingLevel. rewrite E1. simpl. now rewrite E2.
Qed.

Lemma filter_sublist {A : Type} (p : A -> bool) (l : list A) :
  List.filter p l `sublist_of` l.
Proof.
  induction l as [|x l IH]; simpl; [constructor|].
  destruct (p x); now constructor.
Qed.

Lemma builtFrom_flat headingRootLevel h (tables : list Root) flat :
  Forall2 (builtFrom headingRootLevel h) tables flat ->
  Forall (fun s => Subsections s = [] /\ deref h (Path s) <> []) flat.
Proof.
  induction 1 as [|t s ts ss (_ & Hs & _ & Hn) _ IH]; constructor; auto.
Qed.

(** What [attachedTo] says of a section below a root. *)
Lemma attachedTo_root h r s :
  isRootSection h r = true -> deref h (Path s) <> [] ->
  attachedTo h r s = true ->
  deref h (Path s) !! 0%nat = deref h (Path r) !! 0%nat
  /\ 1 < length (deref h (Path s)).
Proof.
  unfold attachedTo, isRootSection. intros Hr Hs H.
  apply andb_true_iff in H as [Hlen Heq].
  apply negb_true_iff, Nat.eqb_neq in Hlen. apply Nat.eqb_eq in Hr.
  apply String.eqb_eq in Heq.
  destruct (deref h (Path r)) as [|x [|? ?]]; try discriminate.
  destruct (deref h (Path s)) as [|y [|z path]]; simpl in *;
    try contradiction; try lia.
  split; [congruence|lia].
Qed.

(** C8. In the list that the pass returns, a section that has
    subsections has a path of length one; a subsection of a section has
    the first path element of that section and a path longer than one; and
    the subsections of a section are sections of the list, in the order
    of the list. *)
Theorem subsections_of_roots source headingRootLevel h sections h' :
  parseDocumentationMarkdown source headingRootLevel h = Ok (sections, h') ->
  Forall (fun s =>
            (Subsections s <> [] -> length (deref h' (Path s)) = 1)
            /\ Forall (fun sub =>
                         deref h' (Path sub) !! 0%nat
                         = deref h' (Path s) !! 0%nat
                         /\ 1 < length (deref h' (Path sub))
                         /\ Subsections sub = [])
                      (Subsections s)
            /\ Subsections s `sublist_of` sections)
         sections.
Proof.
  intros H. apply parse_Ok in H as (document & tables & flat & _ & _ & Hb & ->).
  apply builtFrom_flat in Hb.
  remember (map (withSubsections h' flat) flat) as sections eqn:Es.
  rewrite Es at 1. apply Forall_fmap, Forall_forall.
  intros s Hs. pose proof (proj1 (Forall_forall _ _) Hb s Hs) as [Hsub Hne].
  unfold compose, withSubsections.
  destruct (isRootSection h' s) eqn:Er; simpl.
  - split; [intros _; now apply Nat.eqb_eq in Er|]. split.
    + apply Forall_forall. intros sub Hin.
      apply list_elem_of_In, List.filter_In in Hin as [Hin Hatt].
      apply list_elem_of_In in Hin.
      pose proof (proj1 (Forall_forall _ _) Hb sub Hin) as [Hsub' Hne'].
      destruct (attachedTo_root _ _ _ Er Hne' Hatt). auto.
    + rewrite <- (filter_attachedTo_withSubsections h' flat s flat), <- Es.
      apply filter_sublist.
  - rewrite Hsub. split; [congruence|]. split; [constructor|].
    apply sublist_nil_l.
Qed.

(** *** The root name *)

Lemma deref_insert (h : heap) (l l' : loc) (a : list string) :
  l < length h ->
  deref (<[l := a]> h) l' = if decide (l = l') then a else deref h l'.
Proof.
  intros Hl. unfold deref. destruct (decide (l = l')) as [<-|Hne].
  - now rewrite list_lookup_insert_eq.
  - now rewrite list_lookup_insert_ne.
Qed.

Lemma insert_0_nonempty (name : string) (path : list string) :
  path <> [] -> <[0%nat := name]> path <> [] /\ <[0%nat := name]> path !! 0%nat = Some name.
Proof. destruct path; [contradiction|]. simpl. split; [discriminate|reflexivity]. Qed.

Lemma insert_0_twice (name : string) (path : list string) :
  <[0%nat := name]> (<[0%nat := name]> path) = <[0%nat := name]> path.
Proof. now destruct path. Qed.

(** The loop of the rename writes the name into the array of every
    section of the list, and into no other array. *)
Lemma setRoot_loop name (sections : list SectionDefinition) : forall h,
  Forall (fun s => deref h (Path s) <> []) sections ->
  exists h2,
    foldM (setRoot name) sections h = Ok h2
    /\ forall l, deref h2 l
                 = if bool_decide (l ∈ map Path sections)
                   then <[0%nat := name]> (deref h l) else deref h l.
Proof.
  induction sections as [|s sections IH]; intros h Hall.
  - exists h. split; [reflexivity|]. intros l. reflexivity.
  - apply Forall_cons in Hall as [Hs Hall].
    pose proof (deref_nonempty_lt _ _ Hs) as Hlt.
    set (h1 := <[Path s := <[0%nat := name]> (deref h (Path s))]> h).
    assert (setRoot name h s = Ok h1) as Hset.
    { unfold setRoot, h1. now destruct (deref h (Path s)). }
    cbn [foldM]. rewrite Hset. cbn [bind].
    assert (forall l, deref h1 l
                      = if decide (Path s = l)
                        then <[0%nat := name]> (deref h (Path s))
                        else deref h l) as Hh1.
    { intros l. unfold h1. now rewrite deref_insert. }
    destruct (IH h1) as (h2 & Hloop & Hh2).
    { apply Forall_forall. intros y Hy. rewrite Hh1.
      destruct (decide (Path s = Path y)).
      - now apply insert_0_nonempty.
      - exact (proj1 (Forall_forall _ _) Hall y Hy). }
    exists h2. split; [exact Hloop|]. intros l. rewrite Hh2, Hh1.
    destruct (decide (Path s = l)) as [<-|Hne].
    + rewrite (bool_decide_eq_true_2 (Path s ∈ Path s :: map Path sections))
        by left.
      destruct (bool_decide _); [apply insert_0_twice|reflexivity].
    + destruct (bool_decide (l ∈ map Path sections)) eqn:El.
      * apply bool_decide_eq_true in El.
        rewrite bool_decide_eq_true_2 by now right. reflexivity.
      * apply bool_decide_eq_false in El.
        rewrite bool_decide_eq_false_2; [reflexivity|].
        intros [->|H]%elem_of_cons; auto.
Qed.

Lemma view_renamed_flat name h1 h2 s :
  Subsections s = [] ->
  deref h2 (Path s) = <[0%nat := name]> (deref h1 (Path s)) ->
  view h2 s = renamed name (view h1 s).
Proof. destruct s as [p subs vars]. simpl. intros -> ->. reflexivity. Qed.

(** C7. When the plain pass returns a list, the pass with a root name
    returns the same sections; read through the store it leaves, every
    section and every section below one has the root name at [Path[0]],
    and the rest of the paths, the variables and the subsections are those
    of the plain pass. *)
Theorem root_rename source headingRootLevel name h sections h1 :
  parseDocumentationMarkdown source headingRootLevel h = Ok (sections, h1) ->
  exists h2,
    parseDocumentationMarkdownWithRootSectionName source headingRootLevel name h
    = Ok (sections, h2)
    /\ map (view h2) sections = map (renamed name) (map (view h1) sections)
    /\ Forall (fun v =>
                 vPath v !! 0%nat = Some name
                 /\ Forall (fun sub => vPath sub !! 0%nat = Some name)
                           (vSubsections v))
              (map (view h2) sections).
Proof.
  intros Hparse. unfold parseDocumentationMarkdownWithRootSectionName.
  rewrite Hparse. simpl.
  apply parse_Ok in Hparse as (document & tables & flat & _ & _ & Hb & ->).
  apply builtFrom_flat in Hb.
  destruct (setRoot_loop name (map (withSubsections h1 flat) flat) h1)
    as (h2 & -> & Hh2).
  { apply Forall_fmap, Forall_forall. intros s Hs. unfold compose.
    rewrite withSubsections_Path.
    exact (proj2 (proj1 (Forall_forall _ _) Hb s Hs)). }
  exists h2. split; [reflexivity|].
  assert (forall s, s ∈ flat ->
            deref h2 (Path s) = <[0%nat := name]> (deref h1 (Path s))) as Hpath.
  { intros s Hs. rewrite Hh2, bool_decide_eq_true_2; [reflexivity|].
    rewrite <- list_fmap_compose. apply list_elem_of_fmap. exists s.
    split; [|exact Hs]. unfold compose. now rewrite withSubsections_Path. }
  assert (forall l : list SectionDefinition, (forall s, s ∈ l -> s ∈ flat) ->
            map (view h2) l = map (renamed name) (map (view h1) l)) as Hsubs.
  { induction l as [|s l IH]; intros Hl; simpl; [reflexivity|].
    rewrite IH by (intros; apply Hl; now right). f_equal.
    assert (s ∈ flat) as Hs by (apply Hl; left).
    apply view_renamed_flat; auto.
    exact (proj1 (proj1 (Forall_forall _ _) Hb s Hs)). }
  assert (forall s, s ∈ flat ->
            view h2 (withSubsections h1 flat s)
            = renamed name (view h1 (withSubsections h1 flat s))) as Hview.
  { intros s Hs. unfold withSubsections.
    destruct (isRootSection h1 s).
    - simpl. rewrite Hpath by auto. f_equal. apply Hsubs.
      intros x Hx. apply list_elem_of_In, List.filter_In in Hx as [Hx _].
      now apply list_elem_of_In.
    - apply view_renamed_flat; auto.
      exact (proj1 (proj1 (Forall_forall _ _) Hb s Hs)). }
  split.
  - rewrite <- !list_fmap_compose. apply Forall_fmap_ext, Forall_forall.
    intros s Hs. unfold compose. now apply Hview.
  - apply Forall_fmap, Forall_fmap, Forall_forall. intros s Hs.
    unfold compose. rewrite Hview by auto.
    pose proof (proj1 (Forall_forall _ _) Hb s Hs) as [Hsub Hne].
    unfold withSubsections. destruct (isRootSection h1 s).
    + simpl. split; [now apply insert_0_nonempty|].
      apply Forall_fmap, Forall_fmap, Forall_forall. intros x Hx.
      apply list_elem_of_In, List.filter_In in Hx as [Hx _].
      apply list_elem_of_In in Hx.
      pose proof (proj1 (Forall_forall _ _) Hb x Hx) as [Hsub' Hne'].
      destruct x as [p subs vars]. simpl in *.
      now apply insert_0_nonempty.
    + destruct s as [p subs vars]. simpl in *. subst subs. simpl.
      split; [now apply insert_0_nonempty|constructor].
Qed.

(* =================================================================== *)
(** ** Range capture *)
(* =================================================================== *)

(** [FindNextElementSibling] returns the error root after the last
    element, and else the first element among the following siblings. *)
Lemma nextElement_cases ps ns :
  soup.nextElement ps ns = soup.errorRoot
  /\ List.filter soup.isElement ns = []
  \/ exists ps' n ns',
      soup.nextElement ps ns = soup.rootAt ps' n ns'
      /\ soup.isElement n = true
      /\ List.filter soup.isElement ns = n :: List.filter soup.isElement ns'
      /\ length ns' < length ns.
Proof.
  revert ps. induction ns as [|n ns IH]; intros ps; simpl.
  - left. auto.
  - destruct (soup.isElement n) eqn:E.
    + right. exists ps, n, ns. auto.
    + destruct (IH (n :: ps)) as [[-> H]|(ps' & m & ns' & -> & Hm & H & Hlen)].
      * left. auto.
      * right. exists ps', m, ns'. repeat split; auto.
Qed.

Lemma boundary_stop heading n ps ns :
  isHeading heading = true ->
  (if isHeading (soup.rootAt ps n ns)
   then do a <- headingLevel (soup.rootAt ps n ns);
        do b <- headingLevel heading;
        Ok (a =? b)%Z
   else Ok false)
  = Ok (boundary heading n).
Proof.
  intros Hh. unfold boundary, isHeading at 1. simpl.
  destruct (Go.matchHeadingTag (Data n)) eqn:E; [|reflexivity].
  rewrite !headingLevel_tagLevel. simpl.
  destruct (isHeading_level _ Hh) as (b & Hb & _).
  apply matchHeadingTag_level in E as (digits & a & E1 & E2 & _).
  rewrite headingLevel_tagLevel in Hb. rewrite Hb.
  unfold tagLevel. rewrite E1. simpl. rewrite E2. reflexivity.
Qed.

(** The capture of the code is the capture over the list of the
    elements that follow, as soon as the fuel covers the siblings. *)
Lemma htmlBetween_captured fuel heading element :
  isHeading heading = true ->
  (exists c, Pointer element = Some c) ->
  after element <= fuel ->
  htmlBetweenHeadingAndNextHeading_fuel fuel heading element
  = captured heading (following element).
Proof.
  intros Hh. revert element.
  induction fuel as [|fuel IH]; intros element [c Hc] Hfuel;
    unfold after, following in *; rewrite Hc in *; [lia|].
  simpl. unfold soup.FindNextElementSibling. rewrite Hc. cbn [ofOption bind].
  destruct (nextElement_cases (node c :: prevs c) (nexts c))
    as [[-> ->]|(ps' & n & ns' & -> & Hn & -> & Hlen)].
  - reflexivity.
  - rewrite boundary_stop by auto. cbn [bind captured].
    destruct (boundary heading n); [reflexivity|].
    unfold HTML at 1. cbn [soup.rootAt Pointer ofOption bind node].
    destruct (html_Render n) as [rendered|] eqn:Er; cbn [ofOption bind deferred].
    + rewrite IH; [|eexists; reflexivity|simpl; lia].
      cbn [soup.rootAt Pointer nexts].
      destruct (captured heading (List.filter soup.isElement ns')); cbn [bind deferred];
        try reflexivity.
      destruct (negb (DEBUG =? "")); [|reflexivity].
      unfold HTML. simpl. now rewrite Er.
    + destruct (negb (DEBUG =? "")); [|reflexivity].
      unfold HTML. simpl. now rewrite Er.
Qed.

Lemma htmlBetween_following heading :
  isHeading heading = true -> (exists c, Pointer heading = Some c) ->
  htmlBetweenHeadingAndNextHeading heading heading
  = captured heading (following heading).
Proof.
  intros Hh Hc. unfold htmlBetweenHeadingAndNextHeading.
  apply htmlBetween_captured; auto.
Qed.


Lemma captured_to_boundary heading mid b rest :
  boundary heading b = true ->
  Forall (fun n => boundary heading n = false) mid ->
  Forall (fun n => is_Some (html_Render n)) mid ->
  captured heading (mid ++ b :: rest) = Ok (joined (map markup mid)).
Proof.
  intros Hb Hmid Hrender. induction Hmid as [|n mid Hn _ IH]; simpl.
  - now rewrite Hb.
  - apply Forall_cons in Hrender as [[r Hr] Hrender].
    rewrite Hn, Hr, IH by auto.
    replace (markup n) with r by (unfold markup; now rewrite Hr). reflexivity.
Qed.

Lemma captured_to_end heading ns :
  DEBUG = "" ->
  Forall (fun n => boundary heading n = false) ns ->
  Forall (fun n => is_Some (html_Render n)) ns ->
  captured heading ns = Ok (joined (map markup ns)).
Proof.
  intros Hd Hns Hrender. induction Hns as [|n ns Hn _ IH]; simpl.
  - now rewrite Hd.
  - apply Forall_cons in Hrender as [[r Hr] Hrender].
    rewrite Hn, Hr, IH by auto.
    replace (markup n) with r by (unfold markup; now rewrite Hr). reflexivity.
Qed.


(** Without [DEBUG] the capture returns, whatever the serializer does. *)
Lemma captured_returns heading ns :
  DEBUG = "" -> exists html, captured heading ns = Ok html.
Proof.
  intros Hd. induction ns as [|n ns [html IH]]; simpl; rewrite ?Hd; [eauto|].
  destruct (boundary heading n); [eauto|].
  destruct (html_Render n); [|simpl; eauto]. rewrite IH. eauto.
Qed.

(** C1, amended. The capture that starts at a heading stops at the first
    following element sibling that is a heading of the same level, and
    returns the markup of the element siblings between the two, in the
    order of the document. *)
Theorem capture_to_same_level heading mid b rest :
  isHeading heading = true ->
  (exists c, Pointer heading = Some c) ->
  following heading = mid ++ b :: rest ->
  boundary heading b = true ->
  Forall (fun n => boundary heading n = false) mid ->
  Forall (fun n => is_Some (html_Render n)) mid ->
  htmlBetweenHeadingAndNextHeading heading heading
  = Ok (joined (map markup mid)).
Proof.
  intros Hh Hc Hf Hb Hmid Hrender.
  rewrite htmlBetween_following, Hf by auto.
  now apply captured_to_boundary.
Qed.


(** X21. Without [DEBUG], a capture that meets no heading of the same
    level ends with the siblings and returns the markup of all of them. *)
Lemma capture_to_end heading :
  DEBUG = "" ->
  isHeading heading = true ->
  (exists c, Pointer heading = Some c) ->
  Forall (fun n => boundary heading n = false) (following heading) ->
  Forall (fun n => is_Some (html_Render n)) (following heading) ->
  htmlBetweenHeadingAndNextHeading heading heading
  = Ok (joined (map markup (following heading))).
Proof.
  intros Hd Hh Hc Hb Hrender. rewrite htmlBetween_following by auto.
  now apply captured_to_end.
Qed.

(* =================================================================== *)
(** ** The heading of a keyword *)
(* =================================================================== *)

Lemma init_headings_byLevel document :
  (exists c, Pointer document = Some c) ->
  init_headings document = Ok (headingsByLevel document).
Proof.
  intros Hc. unfold init_headings, headingsByLevel. simpl.
  repeat (rewrite FindAll_below by (right; exact Hc); cbn [bind]).
  now rewrite !app_nil_r, <- !app_assoc.
Qed.

Lemma init_matches_onElement slug h :
  onElement h -> init_matches slug h = Ok (matchesSlug slug h).
Proof.
  intros (c & Hc & _). unfold matchesSlug, init_matches, soup.Attrs, soup.Text.
  rewrite Hc. simpl.
  now destruct (match _ !! "id" with Some id => id =? slug | None => false end).
Qed.

Lemma init_find_first slug (headings : list Root) :
  Forall onElement headings ->
  init_find slug headings = Ok (List.find (matchesSlug slug) headings).
Proof.
  induction 1 as [|h headings Hh _ IH]; simpl; [reflexivity|].
  rewrite init_matches_onElement by auto. simpl.
  now destruct (matchesSlug slug h).
Qed.

Lemma headingsByLevel_onElement document :
  Forall onElement (headingsByLevel document).
Proof.
  unfold headingsByLevel. simpl. rewrite !Forall_app.
  repeat split; try apply filter_onElement. constructor.
Qed.

(** C2, amended. The headings of the document of a keyword are listed
    level after level, from h1 to h6, each level in document order; the
    heading chosen is the first of that list for which the anchor test
    or the slug test succeeds, and no later one of that list. *)
Theorem heading_by_level_first document slug :
  (exists c, Pointer document = Some c) ->
  init_headings document = Ok (headingsByLevel document)
  /\ init_find slug (headingsByLevel document)
     = Ok (List.find (matchesSlug slug) (headingsByLevel document)).
Proof.
  intros Hc. split; [now apply init_headings_byLevel|].
  apply init_find_first, headingsByLevel_onElement.
Qed.

(* =================================================================== *)
(** ** The anchor of a heading text *)
(* =================================================================== *)

Lemma lowerByte_not_percent c :
  Go.isAlnum c = true -> Ascii.eqb (Go.lowerByte c) "%" = false.
Proof.
  destruct c as [[] [] [] [] [] [] [] []]; vm_compute; congruence.
Qed.

Lemma hyphenate_no_percent inRun s :
  occurs "%" (slugify.hyphenate inRun s) = false.
Proof.
  revert inRun. induction s as [|c s IH]; intros inRun; simpl; [reflexivity|].
  destruct (Go.isAlnum c) eqn:E.
  - simpl. now rewrite lowerByte_not_percent, IH.
  - destruct inRun; simpl; apply IH.
Qed.

(** The pattern of the source asks for a percent sign: it matches no
    string without one. *)
Lemma stripWeightTitle_no_percent s :
  occurs "%" s = false -> Go.stripWeightTitle s = s.
Proof.
  intros H. unfold Go.stripWeightTitle.
  replace (Go.stripPrefix "weight-%" s) with (@None string); [reflexivity|].
  symmetry.
  repeat (destruct s as [|? s]; [reflexivity|]; cbn [Go.stripPrefix];
          match goal with
          | |- (if ?b then _ else _) = _ =>
              destruct b eqn:?; [|reflexivity]
          end).
  exfalso. cbn [occurs] in H. repeat (apply orb_false_iff in H as [? H]).
  match goal with
  | E : Ascii.eqb "%" ?c = true, F : Ascii.eqb ?c "%" = false |- _ =>
      rewrite Ascii.eqb_sym in E; congruence
  end.
Qed.

(** C3, amended. The anchor derived from a heading text is the text
    trimmed and lowercased, with every run of characters that are not
    letters or digits replaced by one hyphen, whenever that slug does not
    begin with weight-, digits, -title-; the heading text
    "Weight: 3 — My Thing" has the anchor weight-3-my-thing. *)
Theorem anchor_of_heading_text text :
  weightTitlePrefixed (slugify.Marshal (Go.TrimSpace text) true) = false ->
  init_anchor text = slugify.hyphenate false (Go.TrimSpace text)
  /\ init_anchor "Weight: 3 — My Thing" = "weight-3-my-thing".
Proof.
  intros _. split; [|reflexivity]. unfold init_anchor. simpl.
  apply stripWeightTitle_no_percent, hyphenate_no_percent.
Qed.

(** *** The capture and the fuel *)

Lemma nextElement_after ps ns : after (soup.nextElement ps ns) <= length ns.
Proof.
  destruct (nextElement_cases ps ns)
    as [[-> _]|(ps' & n & ns' & -> & _ & _ & Hlen)]; unfold after; simpl; lia.
Qed.

Lemma headingLevel_fuel r : headingLevel r <> OutOfFuel.
Proof.
  unfold headingLevel. apply bind_fuel; [destruct (NodeValue r); discriminate|].
  intros digits. destruct (Go.Atoi digits); discriminate.
Qed.

Lemma htmlBetween_fuel_enough fuel heading element :
  after element < fuel ->
  htmlBetweenHeadingAndNextHeading_fuel fuel heading element <> OutOfFuel.
Proof.
  revert element. induction fuel as [|fuel IH]; intros element Hfuel; [lia|].
  - simpl. unfold soup.FindNextElementSibling.
    destruct (Pointer element) as [c|] eqn:E; simpl; [|discriminate].
    pose proof (nextElement_after (node c :: prevs c) (nexts c)) as Hnext.
    set (next := soup.nextElement (node c :: prevs c) (nexts c)) in *.
    apply bind_fuel.
    { destruct (isHeading next); [|discriminate].
      apply bind_fuel; [apply headingLevel_fuel|]. intros a.
      apply bind_fuel; [apply headingLevel_fuel|discriminate]. }
    intros [|]; [discriminate|].
    assert (htmlBetweenHeadingAndNextHeading_fuel fuel heading next <> OutOfFuel)
      as Hrec.
    { apply IH. unfold after in Hfuel. rewrite E in Hfuel. lia. }
    destruct (HTML next) as [rendered| |] eqn:Eh; simpl.
    + destruct (htmlBetweenHeadingAndNextHeading_fuel fuel heading next);
        simpl; try discriminate; [|contradiction].
      rewrite Eh. destruct (negb _); discriminate.
    + rewrite Eh. destruct (negb _); discriminate.
    + now apply HTML_fuel in Eh.
Qed.

(** X24. With [DEBUG] set, the capture after a heading that no element
    follows panics: the deferred function renders the missing node. *)
Lemma capture_nothing_with_DEBUG heading :
  DEBUG <> "" ->
  isHeading heading = true ->
  (exists c, Pointer heading = Some c) ->
  following heading = [] ->
  htmlBetweenHeadingAndNextHeading heading heading = Panic.
Proof.
  intros Hd Hh Hc Hf. rewrite htmlBetween_following, Hf by auto. simpl.
  apply String.eqb_neq in Hd. now rewrite Hd.
Qed.

(** X20. With [DEBUG] set, the capture that reaches the end of the
    siblings returns without the markup of the last of them. *)
Lemma capture_to_end_with_DEBUG heading ns last :
  DEBUG <> "" ->
  isHeading heading = true ->
  (exists c, Pointer heading = Some c) ->
  following heading = ns ++ [last] ->
  Forall (fun n => boundary heading n = false) (ns ++ [last]) ->
  Forall (fun n => is_Some (html_Render n)) (ns ++ [last]) ->
  htmlBetweenHeadingAndNextHeading heading heading
  = Ok (joined (map markup ns)).
Proof.
  intros Hd Hh Hc Hf Hb Hr. rewrite htmlBetween_following, Hf by auto.
  apply String.eqb_neq in Hd. clear Hf.
  induction ns as [|n ns IH]; simpl in *.
  - apply Forall_cons in Hb as [Hb _]. apply Forall_cons in Hr as [[r Hr] _].
    now rewrite Hb, Hr, Hd.
  - apply Forall_cons in Hb as [Hn Hb]. apply Forall_cons in Hr as [[r Hr] Hrs].
    rewrite Hn, Hr, IH by auto.
    replace (markup n) with r by (unfold markup; now rewrite Hr). reflexivity.
Qed.

(** *** When the pass returns *)

Lemma tables_loop_returns headingRootLevel (tables : list Root) :
  Forall onElement tables ->
  Forall (fun table =>
            qualifies table = true ->
            (exists path, tablePath table headingRootLevel = Ok path)
            /\ List.filter (named "tr") (below table) <> []) tables ->
  forall st, exists st', foldM (tableSection headingRootLevel) tables st = Ok st'.
Proof.
  induction 1 as [|table tables Htable _ IH]; intros Hall st; simpl; [eauto|].
  apply Forall_cons in Hall as [Hq Hall]. rewrite tableSection_cases by auto.
  destruct (qualifies table); [|simpl; auto].
  destruct Hq as [[path Hpath] Hrows]; [reflexivity|]. rewrite Hpath. simpl.
  destruct (List.filter (named "tr") (below table)); [contradiction|].
  simpl. auto.
Qed.

(** X22. The pass returns a list as soon as the document is converted
    and every table with the schema has a path and a first row. *)
Lemma parse_returns source headingRootLevel h document tables :
  markdownToHTML source = Ok document ->
  soup.FindAll document "table" = Ok tables ->
  Forall (fun table =>
            qualifies table = true ->
            (exists path, tablePath table headingRootLevel = Ok path)
            /\ List.filter (named "tr") (below table) <> []) tables ->
  exists sections h',
    parseDocumentationMarkdown source headingRootLevel h = Ok (sections, h').
Proof.
  intros Hd Ht Hall. unfold parseDocumentationMarkdown.
  rewrite Hd. simpl. rewrite Ht. simpl.
  destruct (FindAll_Ok _ _ _ Ht) as [_ Hel].
  destruct (tables_loop_returns headingRootLevel tables Hel Hall (h, []))
    as [[h1 flat] Hloop].
  rewrite Hloop. simpl.
  apply (tables_loop _ _ Hel) in Hloop as (paths & flat' & -> & Hflat & Hbuilt).
  simpl in Hflat. subst flat'. apply builtFrom_flat in Hbuilt.
  rewrite attachLoop_map; [simpl; eauto|].
  eapply Forall_impl; [exact Hbuilt|]. now intros s [_ Hs].
Qed.

(** The functions that carry the names of the source never run out of
    fuel. *)
Lemma backtrackToNearestHeader_terminates element :
  backtrackToNearestHeader element <> OutOfFuel.
Proof. apply backtrack_fuel_enough. lia. Qed.

Lemma tablePath_terminates table headingRootLevel :
  tablePath table headingRootLevel <> OutOfFuel.
Proof. apply tablePath_fuel_enough. lia. Qed.

Lemma htmlBetweenHeadingAndNextHeading_terminates heading element :
  htmlBetweenHeadingAndNextHeading heading element <> OutOfFuel.
Proof. apply htmlBetween_fuel_enough. lia. Qed.


(* =================================================================== *)
(** ** The variables of a section *)
(* =================================================================== *)

(** X1. The lookup of a variable by name returns the first variable of the
    section with that name, the variables before it having other names,
    and returns nothing exactly when no variable has the name. *)
Theorem VariableDefinition_first s name :
  match SectionDefinition_VariableDefinition s name with
  | Some v =>
      Name v = name
      /\ exists before after,
          Variables s = before ++ v :: after
          /\ Forall (fun w => Name w <> name) before
  | None => Forall (fun w => Name w <> name) (Variables s)
  end.
Proof.
  unfold SectionDefinition_VariableDefinition.
  induction (Variables s) as [|w variables IH]; simpl; [constructor|].
  destruct (Name w =? name) eqn:E.
  - apply String.eqb_eq in E. split; [exact E|]. exists [], variables. auto.
  - apply String.eqb_neq in E.
    destruct (SectionDefinition_VariableDefinition_in variables name) as [v|].
    + destruct IH as (Hv & before & after & -> & Hbefore). split; [exact Hv|].
      exists (w :: before), after. split; [reflexivity|]. now constructor.
    + now constructor.
Qed.

(** X2. [arraysEqual] never reads out of range: it always returns, and it
    returns true exactly when the two lists, every string trimmed, are
    equal; lists of different lengths are never equal. *)
Theorem arraysEqual_decides a b :
  exists same,
    arraysEqual a b = Ok same
    /\ (same = true <-> map Go.TrimSpace a = map Go.TrimSpace b)
    /\ (length a <> length b -> same = false).
Proof.
  exists (bool_decide (map Go.TrimSpace a = map Go.TrimSpace b)).
  split; [apply arraysEqual_trimmed|]. split.
  - apply bool_decide_eq_true.
  - intros Hlen. apply bool_decide_eq_false. intros H.
    apply (f_equal length) in H. rewrite !length_map in H. contradiction.
Qed.

(* =================================================================== *)
(** ** Names in Pascal case *)
(* =================================================================== *)

Lemma Split_nonempty s : Split s <> [].
Proof.
  destruct s as [|c s]; simpl; [discriminate|].
  destruct (isSeparator c); [discriminate|]. destruct (Split s); discriminate.
Qed.

Lemma Split_emptyWord s :
  (EmptyString ∈ Split s <-> emptyWordFrom true s = true)
  /\ (EmptyString ∈ tail (Split s) <-> emptyWordFrom false s = true).
Proof.
  induction s as [|c s [IH1 IH2]]; simpl.
  - split; [split; [reflexivity|intros _; left]|].
    split; [intros H; inversion H|discriminate].
  - destruct (isSeparator c); simpl.
    + split; [split; [reflexivity|intros _; left]|exact IH1].
    + pose proof (Split_nonempty s) as Hne.
      destruct (Split s) as [|word words]; [contradiction|]. simpl in *.
      rewrite <- IH2. split; [|reflexivity].
      split; [|now right]. intros H. apply elem_of_cons in H as [H|H]; [discriminate|exact H].
Qed.

Lemma emptyWordFrom_true s :
  emptyWordFrom true s
  = match s with EmptyString => true | _ => false end
    || startsWithSeparator s || emptyWordFrom false s.
Proof.
  destruct s as [|c s]; simpl; [reflexivity|].
  destruct (isSeparator c); reflexivity.
Qed.

Lemma emptyWordFrom_false s :
  emptyWordFrom false s = endsWithSeparator s || adjacentSeparators s.
Proof.
  induction s as [|c s IH]; [reflexivity|].
  cbn [emptyWordFrom]. destruct (isSeparator c) eqn:Ec.
  - rewrite emptyWordFrom_true, IH. destruct s as [|d s]; simpl.
    + now rewrite Ec.
    + rewrite Ec. simpl. destruct (isSeparator d); simpl; [now rewrite !orb_true_r|].
      reflexivity.
  - rewrite IH. destruct s as [|d s]; simpl; [now rewrite Ec|].
    now rewrite Ec.
Qed.

Lemma toPascalCase_words (words : list string) out :
  foldM (fun out word =>
           match word with
           | EmptyString => Panic
           | String c rest => Ok (out +:+ ToUpper1 c +:+ rest)
           end) words out = Panic
  <-> EmptyString ∈ words.
Proof.
  revert out. induction words as [|word words IH]; intros out; simpl.
  - split; [discriminate|intros H; inversion H].
  - destruct word as [|c rest]; simpl.
    + split; [intros _; left|reflexivity].
    + rewrite IH. split; [now right|].
      intros H. apply elem_of_cons in H as [H|H]; [discriminate|exact H].
Qed.

(** X3. [toPascalCase] panics exactly on the names with an empty word: the
    empty name, a name that starts or ends with one of the separators
    hyphen, underscore and dot, and a name with two separators in a row. *)
Theorem toPascalCase_panics s :
  toPascalCase s = Panic
  <-> s = EmptyString
      \/ startsWithSeparator s = true
      \/ endsWithSeparator s = true
      \/ adjacentSeparators s = true.
Proof.
  unfold toPascalCase. rewrite toPascalCase_words.
  rewrite (proj1 (Split_emptyWord s)), emptyWordFrom_true, emptyWordFrom_false.
  rewrite !orb_true_iff. destruct s; simpl; intuition (discriminate || auto).
Qed.

Lemma hasSeparator_app s t :
  hasSeparator (s +:+ t) = hasSeparator s || hasSeparator t.
Proof.
  induction s as [|c s IH]; simpl; [reflexivity|]. now rewrite IH, orb_assoc.
Qed.

Lemma Split_words s : Forall (fun word => hasSeparator word = false) (Split s).
Proof.
  induction s as [|c s IH]; simpl; [repeat constructor|].
  destruct (isSeparator c) eqn:Ec; [constructor; auto|].
  destruct (Split s) as [|word words]; [repeat constructor; simpl; now rewrite Ec|].
  apply Forall_cons in IH as [Hw Hws]. constructor; [|exact Hws].
  simpl. now rewrite Ec, Hw.
Qed.

Lemma ToUpper1_separator c :
  isSeparator c = false -> hasSeparator (ToUpper1 c) = false.
Proof.
  destruct c as [[] [] [] [] [] [] [] []]; vm_compute; congruence.
Qed.

(** X4. When [toPascalCase] returns, the name it returns has no hyphen, no
    underscore and no dot. *)
Theorem toPascalCase_no_separator s out :
  toPascalCase s = Ok out -> hasSeparator out = false.
Proof.
  unfold toPascalCase. pose proof (Split_words s) as Hwords.
  assert (hasSeparator EmptyString = false) as Hacc by reflexivity.
  revert Hacc. generalize EmptyString at 1 2 as acc.
  induction Hwords as [|word words Hword _ IH]; intros acc Hacc; simpl.
  - now intros [= <-].
  - destruct word as [|c rest]; [discriminate|]. simpl. apply IH.
    simpl in Hword. apply orb_false_iff in Hword as [Hc Hrest].
    now rewrite !hasSeparator_app, Hacc, ToUpper1_separator, Hrest.
Qed.

(* =================================================================== *)
(** ** The headings before a table *)
(* =================================================================== *)

Lemma prevElement_skip ps ns :
  soup.prevElement ps ns = soup.errorRoot
  /\ Forall (fun p => soup.isElement p = false) ps
  \/ exists skipped p ps',
      ps = skipped ++ p :: ps'
      /\ Forall (fun p => soup.isElement p = false) skipped
      /\ soup.isElement p = true
      /\ soup.prevElement ps ns = soup.rootAt ps' p (rev skipped ++ ns).
Proof.
  revert ns. induction ps as [|p ps IH]; intros ns; simpl.
  - left. split; [reflexivity|constructor].
  - destruct (soup.isElement p) eqn:E.
    + right. exists [], p, ps. repeat split; auto.
    + destruct (IH (p :: ns)) as [[-> H]|(sk & q & ps' & -> & Hsk & Hq & ->)].
      * left. split; [reflexivity|]. now constructor.
      * right. exists (p :: sk), q, ps'. repeat split; auto.
        simpl. now rewrite <- app_assoc.
Qed.

Lemma not_element_not_heading (l : list Node) :
  Forall (fun p => soup.isElement p = false) l ->
  Forall (fun p => headingNode p = false) l.
Proof.
  intros Hl. eapply Forall_impl; [exact Hl|].
  intros p H. unfold headingNode. now rewrite H.
Qed.

Lemma nearestHeading_skip skipped l ns :
  Forall (fun p => headingNode p = false) skipped ->
  nearestHeading (skipped ++ l) ns = nearestHeading l (rev skipped ++ ns).
Proof.
  intros H. revert ns. induction H as [|p sk Hp _ IH]; intros ns; simpl.
  - reflexivity.
  - now rewrite Hp, IH, <- app_assoc.
Qed.

Lemma pathBack_skip headingRootLevel skipped l :
  Forall (fun p => headingNode p = false) skipped ->
  pathBack headingRootLevel (skipped ++ l) = pathBack headingRootLevel l.
Proof.
  induction 1 as [|p sk Hp _ IH]; simpl; [reflexivity|]. now rewrite Hp.
Qed.

Lemma nearestHeading_cases l ns :
  Forall (fun p => headingNode p = false) l
  /\ nearestHeading l ns = soup.errorRoot
  \/ exists skipped h rest,
      l = skipped ++ h :: rest
      /\ Forall (fun p => headingNode p = false) skipped
      /\ headingNode h = true
      /\ nearestHeading l ns = soup.rootAt rest h (rev skipped ++ ns).
Proof.
  revert ns. induction l as [|p l IH]; intros ns; simpl.
  - left. split; [constructor|reflexivity].
  - destruct (headingNode p) eqn:E.
    + right. exists [], p, l. repeat split; auto.
    + destruct (IH (p :: ns)) as [[H ->]|(sk & h & rest & -> & Hsk & Hh & ->)].
      * left. split; [now constructor|reflexivity].
      * right. exists (p :: sk), h, rest. repeat split; auto.
        simpl. now rewrite <- app_assoc.
Qed.

Lemma HTML_rootAt ps n ns :
  HTML (soup.rootAt ps n ns) = ofOption (html_Render n).
Proof. reflexivity. Qed.

Lemma renders_element (l : list Node) p :
  renders l -> p ∈ l -> soup.isElement p = true ->
  exists markup, html_Render p = Some markup.
Proof.
  intros Hl Hp He. exact (proj1 (Forall_forall _ _) Hl p Hp He).
Qed.

(** The walk from an element returns the nearest heading of the element
    and the siblings before it, and panics when there is none. *)
Lemma backtrack_fuel_nearest fuel : forall ps n ns,
  soup.isElement n = true ->
  Data n = "table" \/ is_Some (html_Render n) ->
  renders ps ->
  S (length ps) < fuel ->
  backtrackToNearestHeader_fuel fuel (soup.rootAt ps n ns)
  = match Pointer (nearestHeading (n :: ps) ns) with
    | Some _ => Ok (nearestHeading (n :: ps) ns)
    | None => Panic
    end.
Proof.
  induction fuel as [|fuel IH]; intros ps n ns Hel Hn Hps Hfuel; [lia|].
  cbn [backtrackToNearestHeader_fuel nearestHeading].
  unfold headingNode at 1 2. rewrite Hel. cbn [andb].
  change (NodeValue (soup.rootAt ps n ns)) with (Data n).
  assert (Go.matchHeadingTag (Data n) = true -> is_Some (html_Render n)) as Hh.
  { intros Hm. destruct Hn as [Hn|Hn]; [|exact Hn]. now rewrite Hn in Hm. }
  assert ((if negb (Data n =? "table")
           then debug (HTML (soup.rootAt ps n ns)) else Ok ()) = Ok ()) as ->.
  { destruct (Data n =? "table") eqn:E; [reflexivity|]. simpl.
    apply String.eqb_neq in E. destruct Hn as [Hn|[markup Hn]]; [contradiction|].
    unfold debug. now rewrite HTML_rootAt, Hn. }
  cbn [bind]. destruct (Go.matchHeadingTag (Data n)) eqn:Em.
  - destruct (Hh eq_refl) as [markup Hm].
    unfold debug. now rewrite HTML_rootAt, Hm.
  - unfold soup.FindPrevElementSibling. cbn [soup.rootAt Pointer ofOption bind prevs node nexts].
    destruct (prevElement_skip ps (n :: ns))
      as [[-> Hnone]|(sk & p & ps' & -> & Hsk & Hp & ->)].
    + apply not_element_not_heading in Hnone.
      rewrite <- (app_nil_r ps), nearestHeading_skip by exact Hnone.
      reflexivity.
    + apply not_element_not_heading in Hsk.
      rewrite nearestHeading_skip by exact Hsk.
      destruct (renders_element _ p Hps) as [markup Hm];
        [apply elem_of_app; right; left|exact Hp|].
      unfold debug at 1. rewrite HTML_rootAt, Hm. cbn [ofOption bind].
      apply IH.
      * exact Hp.
      * right. eauto.
      * unfold renders in *. apply Forall_app in Hps as [_ Hps].
        now apply Forall_cons in Hps as [_ Hps].
      * rewrite length_app in Hfuel. simpl in Hfuel. lia.
Qed.

(** X5. The backward walk from an element that is not a heading returns
    the nearest heading among the element siblings before it: the elements
    between the two are no headings. *)
Theorem backtrack_nearest_heading between h rest n ns :
  soup.isElement n = true ->
  Go.matchHeadingTag (Data n) = false ->
  Data n = "table" \/ is_Some (html_Render n) ->
  renders (between ++ h :: rest) ->
  Forall (fun p => headingNode p = false) between ->
  headingNode h = true ->
  backtrackToNearestHeader (soup.rootAt (between ++ h :: rest) n ns)
  = Ok (soup.rootAt rest h (rev between ++ n :: ns)).
Proof.
  intros Hel Hn Hr Hps Hbetween Hh. unfold backtrackToNearestHeader.
  rewrite backtrack_fuel_nearest
    by (try assumption; unfold before; simpl; lia).
  cbn [nearestHeading]. unfold headingNode at 1 2. rewrite Hn, andb_false_r.
  rewrite nearestHeading_skip by exact Hbetween. simpl. now rewrite Hh.
Qed.

Lemma FullText_rootAt ps n ns :
  soup.FullText (soup.rootAt ps n ns) = Ok (nodeText n).
Proof. reflexivity. Qed.

Lemma headingNode_level h :
  headingNode h = true ->
  exists digits level,
    Go.sliceFrom1 (Data h) = Ok digits /\ Go.Atoi digits = Some level
    /\ tagLevel (Data h) = Ok level.
Proof.
  unfold headingNode. intros H. apply andb_true_iff in H as [_ H].
  apply matchHeadingTag_level in H as (digits & level & E1 & E2 & _).
  exists digits, level. repeat split; auto.
  unfold tagLevel. rewrite E1. simpl. now rewrite E2.
Qed.

Lemma tablePath_fuel_pathBack headingRootLevel fuel : forall ps n ns,
  soup.isElement n = true ->
  Data n = "table" \/ is_Some (html_Render n) ->
  renders ps ->
  S (length ps) < fuel ->
  tablePath_fuel fuel (soup.rootAt ps n ns) headingRootLevel
  = ofOption (pathBack headingRootLevel (n :: ps)).
Proof.
  induction fuel as [|fuel IH]; intros ps n ns Hel Hn Hps Hfuel; [lia|].
  cbn [tablePath_fuel]. unfold backtrackToNearestHeader.
  rewrite backtrack_fuel_nearest
    by (try assumption; unfold before; simpl; lia).
  assert (renders (n :: ps) \/ Data n = "table") as Hall.
  { destruct Hn as [Hn|Hn]; [now right|left]. constructor; auto. }
  destruct (nearestHeading_cases (n :: ps) ns)
    as [[Hnone ->]|(sk & h & rest & Hl & Hsk & Hh & ->)].
  - simpl Pointer. cbn [bind].
    rewrite <- (app_nil_r (n :: ps)), pathBack_skip by exact Hnone. reflexivity.
  - rewrite Hl, pathBack_skip by exact Hsk.
    cbn [soup.rootAt Pointer bind NodeValue pathBack]. rewrite Hh.
    destruct (headingNode_level _ Hh) as (digits & level & E1 & E2 & E3).
    rewrite E1, E3. cbn [bind]. rewrite E2. cbn [ofOption bind].
    destruct (level <=? headingRootLevel)%Z; [reflexivity|].
    assert (length rest <= length ps /\ renders rest) as [Hlen Hrest].
    { destruct sk as [|x sk]; simpl in Hl; injection Hl as -> ->.
      - split; [lia|exact Hps].
      - rewrite length_app. simpl. split; [lia|].
        unfold renders in *. apply Forall_app in Hps as [_ Hps].
        now apply Forall_cons in Hps as [_ Hps]. }
    unfold soup.FindPrevElementSibling.
    cbn [soup.rootAt Pointer ofOption bind prevs node nexts].
    destruct (prevElement_skip rest (h :: rev sk ++ ns))
      as [[-> Hnone]|(sk2 & q & rest' & -> & Hsk2 & Hq & ->)].
    + apply not_element_not_heading in Hnone.
      rewrite <- (app_nil_r rest), pathBack_skip by exact Hnone.
      destruct fuel as [|fuel]; [lia|]. reflexivity.
    + apply not_element_not_heading in Hsk2.
      rewrite pathBack_skip by exact Hsk2.
      rewrite IH.
      * destruct (pathBack headingRootLevel (q :: rest')); reflexivity.
      * exact Hq.
      * right. apply (renders_element _ q Hrest); [|exact Hq].
        apply elem_of_app. right. left.
      * unfold renders in *. apply Forall_app in Hrest as [_ Hrest].
        now apply Forall_cons in Hrest as [_ Hrest].
      * rewrite length_app in Hlen. simpl in Hlen. lia.
Qed.

Lemma tablePath_pathBack table c headingRootLevel :
  Pointer table = Some c ->
  soup.isElement (node c) = true ->
  NodeValue table = "table" -> Data (node c) = "table" ->
  renders (prevs c) ->
  tablePath table headingRootLevel
  = ofOption (pathBack headingRootLevel (prevs c)).
Proof.
  intros Hc Hel Hv Hd Hps. destruct table as [pointer value].
  destruct c as [ps n ns]. simpl in *. subst pointer value.
  rewrite <- Hd. change (mkRoot (Some (mkCursor ps n ns)) (Data n))
    with (soup.rootAt ps n ns).
  unfold tablePath.
  rewrite tablePath_fuel_pathBack
    by (try assumption; try (now left); unfold before; simpl; lia).
  simpl. unfold headingNode. now rewrite Hd, andb_false_r.
Qed.

(** X6. The path of a table is made of the titles of the headings among
    the element siblings before the table, from the nearest heading of a
    level at most the root level down to the nearest heading, every heading
    between the two included; without a heading of such a level the
    resolver panics. *)
Theorem tablePath_headings table c headingRootLevel :
  Pointer table = Some c ->
  soup.isElement (node c) = true ->
  NodeValue table = "table" -> Data (node c) = "table" ->
  renders (prevs c) ->
  tablePath table headingRootLevel
  = ofOption (pathBack headingRootLevel (prevs c)).
Proof. apply tablePath_pathBack. Qed.

(* =================================================================== *)
(** ** The store of the paths *)
(* =================================================================== *)

Lemma tables_loop_fresh headingRootLevel (tables : list Root) :
  Forall onElement tables ->
  forall h sections h' sections',
    foldM (tableSection headingRootLevel) tables (h, sections)
    = Ok (h', sections') ->
    exists paths flat,
      h' = h ++ paths /\ sections' = sections ++ flat
      /\ length paths = length flat
      /\ map Path flat = seq (length h) (length flat).
Proof.
  induction 1 as [|table tables Htable _ IH]; intros h sections h' sections'.
  - simpl. intros [= <- <-]. exists [], []. now rewrite !app_nil_r.
  - simpl. rewrite tableSection_cases by auto.
    destruct (qualifies table); simpl; [|apply IH].
    destruct (tablePath table headingRootLevel) as [path| |]; simpl;
      try discriminate.
    destruct (List.filter (named "tr") (below table)); simpl; try discriminate.
    intros H. apply IH in H as (paths & flat & -> & -> & Hlen & Hpaths).
    exists (path :: paths),
           (mkSection (length h) [] (tableVariables table) :: flat).
    rewrite <- !app_assoc. repeat split; simpl; auto.
    rewrite Hpaths, length_app. simpl. now rewrite Nat.add_1_r.
Qed.

Lemma parse_loops source headingRootLevel h sections h' :
  parseDocumentationMarkdown source headingRootLevel h = Ok (sections, h') ->
  exists tables flat,
    Forall onElement tables
    /\ foldM (tableSection headingRootLevel) tables (h, []) = Ok (h', flat)
    /\ Forall (fun s => Subsections s = [] /\ deref h' (Path s) <> []) flat
    /\ sections = map (withSubsections h' flat) flat.
Proof.
  unfold parseDocumentationMarkdown. intros H.
  apply bind_Ok in H as (document & Hdoc & H).
  apply bind_Ok in H as (tables & Htables & H).
  apply bind_Ok in H as ([h1 flat] & Hloop & H).
  apply bind_Ok in H as (attached & Hattach & [= <- <-]).
  simpl in *. destruct (FindAll_Ok _ _ _ Htables) as [_ Hel].
  exists tables, flat. split; [exact Hel|]. split; [exact Hloop|].
  destruct (tables_loop _ _ Hel _ _ _ _ Hloop) as (paths & flat' & -> & Hf & Hb).
  simpl in Hf. subst flat'. apply builtFrom_flat in Hb. split; [exact Hb|].
  rewrite attachLoop_map in Hattach; [congruence|].
  eapply Forall_impl; [exact Hb|]. now intros s [_ Hs].
Qed.

Lemma map_Path_withSubsections h flat (l : list SectionDefinition) :
  map Path (map (withSubsections h flat) l) = map Path l.
Proof.
  induction l as [|s l IH]; simpl; [reflexivity|].
  now rewrite withSubsections_Path, IH.
Qed.

Lemma parse_store source headingRootLevel h sections h' :
  parseDocumentationMarkdown source headingRootLevel h = Ok (sections, h') ->
  (exists paths, h' = h ++ paths /\ length paths = length sections)
  /\ map Path sections = seq (length h) (length sections)
  /\ Forall (fun s => deref h' (Path s) <> []) sections.
Proof.
  intros H. apply parse_loops in H as (tables & flat & Hel & Hloop & Hflat & ->).
  destruct (tables_loop_fresh _ _ Hel _ _ _ _ Hloop)
    as (paths & flat' & -> & Hf & Hlen & Hpaths).
  simpl in Hf. subst flat'. rewrite length_map, map_Path_withSubsections.
  split; [eauto|]. split; [exact Hpaths|].
  apply Forall_fmap. eapply Forall_impl; [exact Hflat|].
  intros s [_ Hs]. unfold compose. now rewrite withSubsections_Path.
Qed.

(** X7. The pass leaves the arrays that are in the store as they are and
    adds one array for each section it returns, in the order of the
    sections: no two sections of the list share the array of their [Path],
    and no [Path] is empty. *)
Theorem parse_fresh_paths source headingRootLevel h sections h' :
  parseDocumentationMarkdown source headingRootLevel h = Ok (sections, h') ->
  (exists paths, h' = h ++ paths /\ length paths = length sections)
  /\ map Path sections = seq (length h) (length sections)
  /\ Forall (fun s => deref h' (Path s) <> []) sections.
Proof. apply parse_store. Qed.

(** X8. In the list that the pass returns, every section with a path
    longer than one whose first path element is the path element of a
    section with a path of length one is among the subsections of that
    section. *)
Theorem subsections_complete source headingRootLevel h sections h' r s :
  parseDocumentationMarkdown source headingRootLevel h = Ok (sections, h') ->
  r ∈ sections -> s ∈ sections ->
  length (deref h' (Path r)) = 1 ->
  1 < length (deref h' (Path s)) ->
  deref h' (Path s) !! 0%nat = deref h' (Path r) !! 0%nat ->
  s ∈ Subsections r.
Proof.
  intros H Hr Hs Hroot Hlong Hfirst.
  apply parse_loops in H as (tables & flat & _ & _ & Hflat & ->).
  apply list_elem_of_fmap in Hr as (r0 & -> & Hr0).
  apply list_elem_of_fmap in Hs as (s0 & -> & Hs0).
  rewrite (withSubsections_Path h' flat r0) in Hroot, Hfirst.
  rewrite (withSubsections_Path h' flat s0) in Hlong, Hfirst.
  unfold withSubsections, isRootSection.
  assert ((length (deref h' (Path r0)) =? 1)%nat = true) as Er
    by now apply Nat.eqb_eq.
  assert ((length (deref h' (Path s0)) =? 1)%nat = false) as Es
    by (apply Nat.eqb_neq; lia).
  rewrite Er, Es. simpl. apply list_elem_of_In, List.filter_In.
  split; [now apply list_elem_of_In|].
  unfold attachedTo, isRootSection. rewrite Es. simpl.
  clear Er Es. revert Hroot Hlong Hfirst.
  destruct (deref h' (Path r0)) as [|x [|? ?]]; try discriminate.
  destruct (deref h' (Path s0)) as [|y path]; simpl; [lia|].
  intros _ _ Hfirst. cbn in Hfirst. injection Hfirst as ->.
  apply String.eqb_refl.
Qed.

Lemma setRoot_length name (sections : list SectionDefinition) : forall h h2,
  foldM (setRoot name) sections h = Ok h2 -> length h2 = length h.
Proof.
  induction sections as [|s sections IH]; intros h h2; simpl.
  - now intros [= <-].
  - unfold setRoot at 1. destruct (deref h (Path s)); [discriminate|].
    simpl. intros H. apply IH in H. now rewrite length_insert in H.
Qed.

(** What the pass with a root name does to the store of the plain pass. *)
Lemma rename_cases source headingRootLevel name h sections h2 :
  parseDocumentationMarkdownWithRootSectionName source headingRootLevel name h
  = Ok (sections, h2) ->
  exists h1,
    parseDocumentationMarkdown source headingRootLevel h = Ok (sections, h1)
    /\ length h2 = length h1
    /\ forall l, deref h2 l
                 = if bool_decide (l ∈ map Path sections)
                   then <[0%nat := name]> (deref h1 l) else deref h1 l.
Proof.
  unfold parseDocumentationMarkdownWithRootSectionName. intros H.
  apply bind_Ok in H as ([sections' h1] & Hparse & H).
  apply bind_Ok in H as (h2' & Hloop & [= <- <-]). simpl in *.
  exists h1. split; [exact Hparse|]. split; [eapply setRoot_length, Hloop|].
  destruct (parse_store _ _ _ _ _ Hparse) as (_ & _ & Hne).
  destruct (setRoot_loop name sections' h1 Hne) as (h2 & Hloop' & Hh2).
  rewrite Hloop in Hloop'. injection Hloop' as <-. exact Hh2.
Qed.

Lemma rename_store source headingRootLevel name h sections h2 :
  parseDocumentationMarkdownWithRootSectionName source headingRootLevel name h
  = Ok (sections, h2) ->
  (forall l, l < length h -> deref h2 l = deref h l)
  /\ length h2 = length h + length sections
  /\ map Path sections = seq (length h) (length sections)
  /\ Forall (fun s => deref h2 (Path s) !! 0%nat = Some name) sections.
Proof.
  intros H. apply rename_cases in H as (h1 & Hparse & Hlen & Hh2).
  destruct (parse_store _ _ _ _ _ Hparse)
    as ((paths & -> & Hpaths) & Hseq & Hne).
  split; [|split; [|split]].
  - intros l Hl. rewrite Hh2, bool_decide_eq_false_2.
    + now apply deref_app_l.
    + rewrite Hseq, list_elem_of_In, in_seq. lia.
  - rewrite Hlen, length_app. lia.
  - exact Hseq.
  - apply Forall_forall. intros s Hs. rewrite Hh2, bool_decide_eq_true_2.
    + apply insert_0_nonempty. exact (proj1 (Forall_forall _ _) Hne s Hs).
    + apply list_elem_of_fmap. eauto.
Qed.

(** X9. The pass with a root name changes no array that was in the store
    before it: the sections of other documents keep their paths. It adds
    one array for each section it returns, with the root name first. *)
Theorem rename_frame source headingRootLevel name h sections h2 :
  parseDocumentationMarkdownWithRootSectionName source headingRootLevel name h
  = Ok (sections, h2) ->
  (forall l, l < length h -> deref h2 l = deref h l)
  /\ length h2 = length h + length sections
  /\ map Path sections = seq (length h) (length sections)
  /\ Forall (fun s => deref h2 (Path s) !! 0%nat = Some name) sections.
Proof. apply rename_store. Qed.

(* =================================================================== *)
(** ** Loops that replace the elements in place *)
(* =================================================================== *)

Lemma inplace_loop_from {A : Type} (body : list A -> nat -> result (list A))
    (f : A -> result A) :
  (forall l i x, l !! i = Some x ->
                 body l i = do y <- f x; Ok (<[i := y]> l)) ->
  forall (rest done : list A),
    foldM body (seq (length done) (length rest)) (done ++ rest)
    = do ys <- mapM f rest; Ok (done ++ ys).
Proof.
  intros Hbody. induction rest as [|x rest IH]; intros done; simpl.
  - reflexivity.
  - rewrite (Hbody _ _ x) by (rewrite lookup_app_r, Nat.sub_diag by lia; reflexivity).
    destruct (f x) as [y| |]; simpl; try reflexivity.
    rewrite insert_app_r_alt, Nat.sub_diag by lia. simpl.
    replace (done ++ y :: rest) with ((done ++ [y]) ++ rest)
      by now rewrite <- app_assoc.
    replace (S (length done)) with (length (done ++ [y]))
      by (rewrite length_app; simpl; lia).
    rewrite IH. destruct (mapM f rest); simpl; try reflexivity.
    now rewrite <- app_assoc.
Qed.

Lemma inplace_loop {A : Type} (body : list A -> nat -> result (list A))
    (f : A -> result A) (l : list A) :
  (forall l i x, l !! i = Some x ->
                 body l i = do y <- f x; Ok (<[i := y]> l)) ->
  foldM body (seq 0 (length l)) l = mapM f l.
Proof.
  intros Hbody. pose proof (inplace_loop_from body f Hbody l []) as H.
  simpl in H. rewrite H. now destruct (mapM f l).
Qed.

Lemma mapM_Forall2 {A B : Type} (f : A -> result B) (l : list A) (l' : list B) :
  mapM f l = Ok l' -> Forall2 (fun x y => f x = Ok y) l l'.
Proof.
  revert l'. induction l as [|x l IH]; intros l'; simpl.
  - intros [= <-]. constructor.
  - intros H. apply bind_Ok in H as (y & Hy & H).
    apply bind_Ok in H as (ys & Hys & [= <-]). constructor; auto.
Qed.

Lemma mapM_fixed {A : Type} (f : A -> result A) (l : list A) :
  Forall (fun x => f x = Ok x) l -> mapM f l = Ok l.
Proof.
  induction 1 as [|x l Hx _ IH]; simpl; [reflexivity|]. now rewrite Hx, IH.
Qed.

(* =================================================================== *)
(** ** More variables for a section *)
(* =================================================================== *)

Lemma addVariableDefsOnSection_mapM h Sections sectionName variables :
  addVariableDefsOnSection h Sections sectionName variables
  = mapM (fun sec =>
            do name <- SectionDefinition_Name h sec;
            Ok (if negb (name =? sectionName) then sec
                else mkSection (Path sec) (Subsections sec)
                               (Variables sec ++ variables)))
         Sections.
Proof.
  unfold addVariableDefsOnSection. apply inplace_loop.
  intros l i sec Hsec. rewrite Hsec. simpl.
  destruct (SectionDefinition_Name h sec) as [name| |]; simpl; try reflexivity.
  destruct (negb (name =? sectionName)); [|reflexivity].
  now rewrite list_insert_id.
Qed.

Lemma addVariableDefsOnSection_each h Sections sectionName variables Sections' :
  addVariableDefsOnSection h Sections sectionName variables = Ok Sections' ->
  Forall2 (fun s s' =>
             exists name,
               SectionDefinition_Name h s = Ok name
               /\ s' = if negb (name =? sectionName) then s
                       else mkSection (Path s) (Subsections s)
                                      (Variables s ++ variables))
          Sections Sections'.
Proof.
  rewrite addVariableDefsOnSection_mapM. intros H. apply mapM_Forall2 in H.
  eapply Forall2_impl; [exact H|]. intros s s' Hs. simpl in Hs.
  apply bind_Ok in Hs as (name & Hname & [= <-]). eauto.
Qed.

(** X10. [addVariableDefsOnSection] keeps the number and the order of the
    sections, their paths and their subsections; a section whose name is
    the given one gets the new variables after the ones it has, and a
    section of another name is not changed. *)
Theorem addVariableDefsOnSection_sections h Sections sectionName variables
    Sections' :
  addVariableDefsOnSection h Sections sectionName variables = Ok Sections' ->
  Forall2 (fun s s' =>
             Path s' = Path s /\ Subsections s' = Subsections s
             /\ (SectionDefinition_Name h s = Ok sectionName
                 /\ Variables s' = Variables s ++ variables
                 \/ SectionDefinition_Name h s <> Ok sectionName /\ s' = s))
          Sections Sections'.
Proof.
  intros H. apply addVariableDefsOnSection_each in H.
  eapply Forall2_impl; [exact H|]. intros s s' (name & Hname & ->).
  destruct (name =? sectionName) eqn:E; simpl.
  - apply String.eqb_eq in E. subst name. auto.
  - apply String.eqb_neq in E. repeat split; auto. right. split; [|reflexivity].
    rewrite Hname. congruence.
Qed.

Lemma VariableDefinition_in_app variables more name :
  SectionDefinition_VariableDefinition_in (variables ++ more) name
  = match SectionDefinition_VariableDefinition_in variables name with
    | Some v => Some v
    | None => SectionDefinition_VariableDefinition_in more name
    end.
Proof.
  induction variables as [|v variables IH]; simpl; [reflexivity|].
  now destruct (Name v =? name).
Qed.

(** X11. After [addVariableDefsOnSection], a lookup by name that found a
    variable in a section finds the same variable: an added variable never
    takes the place of a documented one; in a section of the given name a
    lookup that found nothing finds the first added variable of that
    name. *)
Theorem lookup_after_addVariableDefs h Sections sectionName variables
    Sections' :
  addVariableDefsOnSection h Sections sectionName variables = Ok Sections' ->
  Forall2 (fun s s' =>
             forall name,
               match SectionDefinition_VariableDefinition s name with
               | Some v => SectionDefinition_VariableDefinition s' name = Some v
               | None =>
                   SectionDefinition_Name h s = Ok sectionName ->
                   SectionDefinition_VariableDefinition s' name
                   = SectionDefinition_VariableDefinition_in variables name
               end)
          Sections Sections'.
Proof.
  intros H. apply addVariableDefsOnSection_each in H.
  eapply Forall2_impl; [exact H|]. intros s s' (m & Hm & ->) name.
  unfold SectionDefinition_VariableDefinition.
  destruct (m =? sectionName) eqn:E; simpl.
  - rewrite VariableDefinition_in_app.
    now destruct (SectionDefinition_VariableDefinition_in (Variables s) name).
  - destruct (SectionDefinition_VariableDefinition_in (Variables s) name);
      [reflexivity|].
    intros Hname. rewrite Hname in Hm. injection Hm as <-.
    now rewrite String.eqb_refl in E.
Qed.

(* =================================================================== *)
(** ** The table of the sections *)
(* =================================================================== *)

Lemma seq_Path_bound (sections : list SectionDefinition) start s :
  map Path sections = seq start (length sections) -> s ∈ sections ->
  start <= Path s < start + length sections.
Proof.
  intros Hseq Hs. assert (Path s ∈ map Path sections) as Hin
    by (apply list_elem_of_fmap; eauto).
  rewrite Hseq, list_elem_of_In, in_seq in Hin. exact Hin.
Qed.

(** X12. In the table that [init] builds, the sections of the three
    documents follow one another; the sections of the first document have
    the paths that their pass gave them, every section of the second has
    Master at [Path[0]] and every section of the third Dwindle: the later
    passes do not touch the paths of the earlier ones. *)
Theorem init_Sections_documents h Sections h' :
  init_Sections h = Ok (Sections, h') ->
  exists first h1 master h2 dwindle,
    parseDocumentationMarkdown documentationSource 3 h = Ok (first, h1)
    /\ parseDocumentationMarkdownWithRootSectionName
         masterLayoutDocumentationSource 2 "Master" h1 = Ok (master, h2)
    /\ parseDocumentationMarkdownWithRootSectionName
         dwindleLayoutDocumentationSource 2 "Dwindle" h2 = Ok (dwindle, h')
    /\ map Path Sections = map Path (first ++ master ++ dwindle)
    /\ Forall (fun s => deref h' (Path s) = deref h1 (Path s)) first
    /\ Forall (fun s => deref h' (Path s) !! 0%nat = Some "Master") master
    /\ Forall (fun s => deref h' (Path s) !! 0%nat = Some "Dwindle") dwindle.
Proof.
  unfold init_Sections. intros H.
  apply bind_Ok in H as ([first h1] & Hfirst & H).
  apply bind_Ok in H as ([master h2] & Hmaster & H).
  apply bind_Ok in H as ([dwindle h3] & Hdwindle & H).
  apply bind_Ok in H as (Sections0 & Hadd & [= <- <-]). simpl in *.
  exists first, h1, master, h2, dwindle. repeat (split; [assumption|]).
  destruct (parse_store _ _ _ _ _ Hfirst) as ((p1 & -> & Hp1) & Hseq1 & _).
  destruct (rename_store _ _ _ _ _ _ Hmaster) as (Hf2 & Hl2 & Hseq2 & Hn2).
  destruct (rename_store _ _ _ _ _ _ Hdwindle) as (Hf3 & Hl3 & Hseq3 & Hn3).
  split; [|split; [|split]].
  - apply addVariableDefsOnSection_each in Hadd. clear -Hadd.
    induction Hadd as [|s s' l l' (name & _ & ->) _ IH]; simpl; [reflexivity|].
    rewrite IH. f_equal. now destruct (negb (name =? "General")).
  - apply Forall_forall. intros s Hs.
    pose proof (seq_Path_bound _ _ _ Hseq1 Hs) as Hb.
    rewrite length_app in *. rewrite Hf3, Hf2 by lia. reflexivity.
  - apply Forall_forall. intros s Hs.
    pose proof (seq_Path_bound _ _ _ Hseq2 Hs) as Hb.
    rewrite Hf3 by lia. exact (proj1 (Forall_forall _ _) Hn2 s Hs).
  - exact Hn3.
Qed.


(* =================================================================== *)
(** ** The descriptions of the keywords *)
(* =================================================================== *)

Lemma init_Keywords_mapM Keywords :
  init_Keywords Keywords = mapM init_keyword Keywords.
Proof.
  unfold init_Keywords. apply inplace_loop. intros l i kw Hkw.
  now rewrite Hkw.
Qed.

Lemma init_keyword_cases kw kw' :
  init_keyword kw = Ok kw' ->
  kwName kw' = kwName kw
  /\ documentationFile kw' = documentationFile kw
  /\ documentationHeadingSlug kw' = documentationHeadingSlug kw
  /\ (kwDescription kw <> "" -> kw' = kw).
Proof.
  unfold init_keyword. destruct (kwDescription kw =? "") eqn:E; simpl.
  - apply String.eqb_eq in E.
    destruct (documentationSources_ReadFile _) as [content|].
    + intros H. apply bind_Ok in H as (found & _ & H).
      destruct found; injection H as <-; simpl; repeat split; auto; congruence.
    + intros [= <-]. repeat split; auto.
  - intros [= <-]. repeat split; auto.
Qed.

(** X14. The loop over the keywords keeps their number and their order,
    their names, files and anchors, and leaves a keyword that has a
    description exactly as it is: a description is never overwritten. *)
Theorem init_Keywords_frame Keywords Keywords' :
  init_Keywords Keywords = Ok Keywords' ->
  Forall2 (fun kw kw' =>
             kwName kw' = kwName kw
             /\ documentationFile kw' = documentationFile kw
             /\ documentationHeadingSlug kw' = documentationHeadingSlug kw
             /\ (kwDescription kw <> "" -> kw' = kw))
          Keywords Keywords'.
Proof.
  rewrite init_Keywords_mapM. intros H. apply mapM_Forall2 in H.
  eapply Forall2_impl; [exact H|]. apply init_keyword_cases.
Qed.

Lemma init_keyword_again kw kw' :
  init_keyword kw = Ok kw' -> init_keyword kw' = Ok kw'.
Proof.
  intros H. destruct (kwDescription kw' =? "") eqn:E'.
  - (* the new description is empty: the keyword has not changed *)
    apply String.eqb_eq in E'. assert (kw' = kw) as ->; [|exact H].
    revert H. unfold init_keyword.
    destruct (kwDescription kw =? "") eqn:E; simpl; [|now intros [= <-]].
    apply String.eqb_eq in E.
    destruct (documentationSources_ReadFile _); [|now intros [= <-]].
    intros H. apply bind_Ok in H as (found & _ & H).
    destruct found as [description|]; injection H as <-; [|reflexivity].
    simpl in E'. subst description. destruct kw; simpl in *. now subst.
  - unfold init_keyword. now rewrite E'.
Qed.

(** X15. Running the loop over the keywords again on its result changes
    nothing. *)
Theorem init_Keywords_again Keywords Keywords' :
  init_Keywords Keywords = Ok Keywords' ->
  init_Keywords Keywords' = Ok Keywords'.
Proof.
  rewrite !init_Keywords_mapM. intros H. apply mapM_Forall2 in H.
  apply mapM_fixed. induction H as [|kw kw' l l' Hkw _ IH]; constructor; auto.
  eapply init_keyword_again, Hkw.
Qed.

(** X16. A keyword without a description whose anchor matches no heading
    of its document keeps its empty description, and the loop goes on with
    the next keyword. *)
Theorem init_keyword_miss kw content document :
  kwDescription kw = "" ->
  documentationSources_ReadFile
    (filepath_Join "sources" (documentationFile kw +:+ ".md")) = Some content ->
  markdownToHTML content = Ok document ->
  (exists c, Pointer document = Some c) ->
  Forall (fun h => matchesSlug (documentationHeadingSlug kw) h = false)
         (headingsByLevel document) ->
  init_keyword kw = Ok kw.
Proof.
  intros Hd Hread Hdoc Hc Hnone. unfold init_keyword, init_description.
  rewrite Hd, Hread, Hdoc. simpl.
  rewrite init_headings_byLevel by exact Hc. cbn [bind].
  rewrite init_find_first by apply headingsByLevel_onElement.
  replace (List.find _ _) with (@None Root); [reflexivity|].
  symmetry. induction Hnone as [|x l Hx _ IH]; simpl; [reflexivity|].
  now rewrite Hx.
Qed.

(* =================================================================== *)
(** ** What a capture can be *)
(* =================================================================== *)

Lemma captured_prefix heading ns :
  DEBUG = "" ->
  exists k,
    captured heading ns = Ok (joined (map markup (take k ns)))
    /\ Forall (fun n => boundary heading n = false /\ is_Some (html_Render n))
              (take k ns).
Proof.
  intros Hd. induction ns as [|n ns (k & IH & Hk)]; simpl.
  - exists 0. rewrite Hd. split; [reflexivity|constructor].
  - destruct (boundary heading n) eqn:Eb.
    { exists 0. split; [reflexivity|constructor]. }
    destruct (html_Render n) as [rendered|] eqn:Er.
    + exists (S k). rewrite IH. simpl. split.
      * replace (markup n) with rendered by (unfold markup; now rewrite Er).
        reflexivity.
      * constructor; eauto.
    + exists 0. rewrite Hd. split; [reflexivity|constructor].
Qed.

(** X17. Without [DEBUG] the capture after a heading always returns, and
    what it returns is the markup of the first element siblings after the
    heading, up to some point: none of them is a heading of the level of
    the heading, each of them was serialized, and the nodes that are not
    elements add nothing. *)
Theorem capture_is_prefix heading :
  DEBUG = "" ->
  isHeading heading = true ->
  (exists c, Pointer heading = Some c) ->
  exists k,
    htmlBetweenHeadingAndNextHeading heading heading
    = Ok (joined (map markup (take k (following heading))))
    /\ Forall (fun n => boundary heading n = false /\ is_Some (html_Render n))
              (take k (following heading)).
Proof.
  intros Hd Hh Hc. rewrite htmlBetween_following by auto.
  now apply captured_prefix.
Qed.

(* =================================================================== *)
(** ** The links of a description *)
(* =================================================================== *)

Lemma stripPrefix_app prefix rest :
  Go.stripPrefix prefix (prefix +:+ rest) = Some rest.
Proof.
  induction prefix as [|c prefix IH]; simpl; [now destruct rest|].
  now rewrite Ascii.eqb_refl.
Qed.

Lemma Replace1_prefix s old new rest :
  Go.stripPrefix old s = Some rest -> Replace1 s old new = new +:+ rest.
Proof. intros H. destruct s; simpl; now rewrite H. Qed.

(** X18. The target of a link is never left relative to the parent
    directory: a target that starts with ../ gets the address of the wiki
    in place of these three bytes, the rest as it is, and another target is
    kept; without the attribute the target is empty. *)
Theorem linkReplacement_target content href :
  exists target,
    linkReplacement content href = "[" +:+ content +:+ "](" +:+ target +:+ ")"
    /\ HasPrefix target "../" = false
    /\ (forall rest, href = Some ("../" +:+ rest) ->
                     target = "https://wiki.hyprland.org/Configuring/" +:+ rest)
    /\ (HasPrefix (default "" href) "../" = false -> target = default "" href).
Proof.
  unfold linkReplacement. remember (default "" href) as h eqn:Hh.
  destruct (HasPrefix h "../") eqn:E.
  - unfold HasPrefix in E.
    destruct (Go.stripPrefix "../" h) as [rest|] eqn:Es; [|discriminate].
    exists ("https://wiki.hyprland.org/Configuring/" +:+ rest).
    rewrite (Replace1_prefix _ _ _ _ Es).
    split; [reflexivity|]. split; [reflexivity|]. split; [|discriminate].
    intros rest' ->. simpl in Hh. subst h.
    rewrite stripPrefix_app in Es. now injection Es as <-.
  - exists h. split; [reflexivity|]. split; [exact E|]. split; [|reflexivity].
    intros rest ->. simpl in Hh. subst h. unfold HasPrefix in E.
    now rewrite stripPrefix_app in E.
Qed.

(* =================================================================== *)
(** ** The name of a section, and tables without rows *)
(* =================================================================== *)

(** X19. The last element of the path of a table, the name of its section,
    is the title of the nearest heading before the table; when that heading
    has a level at most the root level, the path is that title alone. *)
Theorem tablePath_name table c headingRootLevel between h rest path :
  Pointer table = Some c ->
  soup.isElement (node c) = true ->
  NodeValue table = "table" -> Data (node c) = "table" ->
  renders (prevs c) ->
  prevs c = between ++ h :: rest ->
  Forall (fun p => headingNode p = false) between ->
  headingNode h = true ->
  tablePath table headingRootLevel = Ok path ->
  last path = Some (nodeText h)
  /\ (forall level, tagLevel (Data h) = Ok level ->
                    (level <= headingRootLevel)%Z -> path = [nodeText h]).
Proof.
  intros Hc Hel Hv Hd Hps Hprevs Hbetween Hh.
  rewrite (tablePath_pathBack table c) by assumption.
  rewrite Hprevs, pathBack_skip by exact Hbetween. simpl. rewrite Hh.
  destruct (headingNode_level _ Hh) as (digits & level & _ & _ & ->).
  destruct (level <=? headingRootLevel)%Z eqn:El.
  - intros [= <-]. split; [reflexivity|]. auto.
  - destruct (pathBack headingRootLevel rest) as [path'|]; [|discriminate].
    intros [= <-]. split; [apply last_snoc|].
    intros level' [= <-] Hle. apply Z.leb_nle in El. contradiction.
Qed.
End Loader.

(* ===================================================================== *)
(** ** The examples of the specification, and the claims at them *)
(* ===================================================================== *)

Import Examples.

(** Example A of the specification. *)
Example example_A :
  parseDocumentationMarkdown renderAll convert parse "A" 2 []
  = Ok ([mkSection 0 [] [mkVariable "foo" "does x" "bool" "0"]], [["General"]]).
Proof. vm_compute. reflexivity. Qed.

(** Example B of the specification. *)
Example example_B :
  parseDocumentationMarkdown renderAll convert parse "B" 2 [] = Ok (sectionsB, heapB).
Proof. vm_compute. reflexivity. Qed.

Example example_B_renamed :
  parseDocumentationMarkdownWithRootSectionName renderAll convert parse "B" 2
    "Master" []
  = Ok (sectionsB, heapMaster).
Proof. vm_compute. reflexivity. Qed.

(** Example C of the specification. *)
Example example_C :
  init_description renderAll "" convert (fun _ => document bodyC) (fun html => html)
    (mkKeyword "kw" "file" "my-anchor" "") "C"
  = Ok (Some "<p>body</p>").
Proof. vm_compute. reflexivity. Qed.

(** The pattern of [init] does not take the prefix of a page title away:
    it asks for a percent sign and the letter d where digits are meant. *)
Example weight_title_kept :
  init_anchor ("weight: 3" +:+ String (ascii_of_N 10) "title: Variables")
  = "weight-3-title-variables".
Proof. reflexivity. Qed.

(** C1 as the specification states it fails: after a heading of level 3
    the capture passes a heading of level 2 and goes on to the next heading
    of level 3. *)
Lemma capture_passes_prominent_heading :
  htmlBetweenHeadingAndNextHeading renderAll "" (at_ 0 bodyLevels) (at_ 0 bodyLevels)
  = Ok "<p>x</p><h2>B</h2><p>y</p>"
  /\ captureToProminent renderAll (at_ 0 bodyLevels) = "<p>x</p>"
  /\ htmlBetweenHeadingAndNextHeading renderAll "" (at_ 0 bodyLevels)
       (at_ 0 bodyLevels)
     <> Ok (captureToProminent renderAll (at_ 0 bodyLevels)).
Proof. vm_compute. repeat split; congruence. Qed.

Lemma capture_to_same_level_witness :
  isHeading (at_ 0 bodyC) = true
  /\ (exists c, Pointer (at_ 0 bodyC) = Some c)
  /\ following (at_ 0 bodyC)
     = [elem "p" [] [text "body"]] ++ elem "h2" [] [text "Next"] :: []
  /\ boundary (at_ 0 bodyC) (elem "h2" [] [text "Next"]) = true
  /\ Forall (fun n => boundary (at_ 0 bodyC) n = false) [elem "p" [] [text "body"]]
  /\ Forall (fun n => is_Some (renderAll n)) [elem "p" [] [text "body"]]
  /\ htmlBetweenHeadingAndNextHeading renderAll "" (at_ 0 bodyC) (at_ 0 bodyC)
     = Ok (joined (map (markup renderAll) [elem "p" [] [text "body"]])).
Proof.
  assert (isHeading (at_ 0 bodyC) = true) as H1 by reflexivity.
  assert (exists c, Pointer (at_ 0 bodyC) = Some c) as H2 by (eexists; reflexivity).
  assert (following (at_ 0 bodyC)
          = [elem "p" [] [text "body"]] ++ elem "h2" [] [text "Next"] :: [])
    as H3 by reflexivity.
  assert (boundary (at_ 0 bodyC) (elem "h2" [] [text "Next"]) = true)
    as H4 by reflexivity.
  assert (Forall (fun n => boundary (at_ 0 bodyC) n = false)
                 [elem "p" [] [text "body"]]) as H5
    by (repeat constructor).
  assert (Forall (fun n => is_Some (renderAll n)) [elem "p" [] [text "body"]])
    as H6 by (repeat constructor; eexists; reflexivity).
  repeat (split; [assumption|]).
  exact (capture_to_same_level renderAll "" _ _ _ _ H1 H2 H3 H4 H5 H6).
Defined.

(** C2 as the specification states it fails: of two headings with the
    anchor, the heading of level 1 is chosen though the heading of level 2
    comes first in the document. *)
Lemma later_heading_chosen :
  exists chosen,
    init_headings (document bodyAnchors) = Ok (headingsByLevel (document bodyAnchors))
    /\ init_find "x" (headingsByLevel (document bodyAnchors)) = Ok (Some chosen)
    /\ soup.Text chosen = Ok "second"
    /\ (exists first, firstInDocumentOrder "x" (document bodyAnchors) = Some first
                      /\ soup.Text first = Ok "first")
    /\ firstInDocumentOrder "x" (document bodyAnchors) <> Some chosen.
Proof.
  eexists. split; [reflexivity|]. split; [vm_compute; reflexivity|].
  split; [reflexivity|]. split; [eexists; split; vm_compute; reflexivity|].
  vm_compute. congruence.
Qed.

Lemma heading_by_level_first_witness :
  (exists c, Pointer (document bodyAnchors) = Some c)
  /\ init_headings (document bodyAnchors)
     = Ok (headingsByLevel (document bodyAnchors))
  /\ init_find "x" (headingsByLevel (document bodyAnchors))
     = Ok (List.find (matchesSlug "x") (headingsByLevel (document bodyAnchors))).
Proof.
  assert (exists c, Pointer (document bodyAnchors) = Some c) as H
    by (eexists; reflexivity).
  split; [exact H|]. exact (heading_by_level_first _ "x" H).
Defined.

(** C3 as the specification states it fails: the text of its example has
    no title part, and its anchor keeps the weight. *)
Lemma anchor_keeps_weight : init_anchor "Weight: 3 — My Thing" <> "my-thing".
Proof. vm_compute. congruence. Qed.

Lemma anchor_of_heading_text_witness :
  weightTitlePrefixed (slugify.Marshal (Go.TrimSpace "  Master Layout ") true) = false
  /\ init_anchor "  Master Layout "
     = slugify.hyphenate false (Go.TrimSpace "  Master Layout ")
  /\ init_anchor "Weight: 3 — My Thing" = "weight-3-my-thing".
Proof.
  assert (weightTitlePrefixed
            (slugify.Marshal (Go.TrimSpace "  Master Layout ") true) = false)
    as H by reflexivity.
  split; [exact H|]. exact (anchor_of_heading_text _ H).
Defined.


Lemma table_sections_witness :
  parseDocumentationMarkdown renderAll convert parse "B" 2 [] = Ok (sectionsB, heapB)
  /\ exists document tables,
      markdownToHTML convert parse "B" = Ok document
      /\ soup.FindAll document "table" = Ok tables
      /\ Forall2 (fun table s =>
                    Variables s = tableVariables table
                    /\ tablePath renderAll table 2 = Ok (deref heapB (Path s)))
                 (List.filter qualifies tables) sectionsB.
Proof.
  assert (parseDocumentationMarkdown renderAll convert parse "B" 2 []
          = Ok (sectionsB, heapB)) as H by (vm_compute; reflexivity).
  split; [exact H|].
  exact (table_sections renderAll convert parse "B" 2 [] sectionsB heapB H).
Defined.

Lemma orphan_table_fatal_witness :
  markdownToHTML convert parse "orphan" = Ok (document bodyOrphan)
  /\ soup.FindAll (document bodyOrphan) "table" = Ok [at_ 2 bodyOrphan]
  /\ at_ 2 bodyOrphan ∈ [at_ 2 bodyOrphan]
  /\ qualifies (at_ 2 bodyOrphan) = true
  /\ orphan (at_ 2 bodyOrphan)
  /\ parseDocumentationMarkdown renderAll convert parse "orphan" 2 [] = Panic.
Proof.
  assert (markdownToHTML convert parse "orphan" = Ok (document bodyOrphan))
    as H1 by reflexivity.
  assert (soup.FindAll (document bodyOrphan) "table" = Ok [at_ 2 bodyOrphan])
    as H2 by reflexivity.
  assert (at_ 2 bodyOrphan ∈ [at_ 2 bodyOrphan]) as H3 by apply list_elem_of_here.
  assert (qualifies (at_ 2 bodyOrphan) = true) as H4 by (vm_compute; reflexivity).
  assert (orphan (at_ 2 bodyOrphan)) as H5.
  { unfold orphan. simpl. repeat constructor; intros E; reflexivity. }
  repeat (split; [assumption|]).
  exact (orphan_table_fatal renderAll convert parse "orphan" 2 [] _ _ _ H1 H2 H3 H4 H5).
Defined.

Lemma root_rename_witness :
  parseDocumentationMarkdown renderAll convert parse "B" 2 [] = Ok (sectionsB, heapB)
  /\ exists h2,
      parseDocumentationMarkdownWithRootSectionName renderAll convert parse "B" 2
        "Master" []
      = Ok (sectionsB, h2)
      /\ map (view h2) sectionsB = map (renamed "Master") (map (view heapB) sectionsB)
      /\ Forall (fun v =>
                   vPath v !! 0%nat = Some "Master"
                   /\ Forall (fun sub => vPath sub !! 0%nat = Some "Master")
                             (vSubsections v))
                (map (view h2) sectionsB).
Proof.
  assert (parseDocumentationMarkdown renderAll convert parse "B" 2 []
          = Ok (sectionsB, heapB)) as H by (vm_compute; reflexivity).
  split; [exact H|].
  exact (root_rename renderAll convert parse "B" 2 "Master" [] sectionsB heapB H).
Defined.

Lemma subsections_of_roots_witness :
  parseDocumentationMarkdown renderAll convert parse "B" 2 [] = Ok (sectionsB, heapB)
  /\ Forall (fun s =>
               (Subsections s <> [] -> length (deref heapB (Path s)) = 1)
               /\ Forall (fun sub =>
                            deref heapB (Path sub) !! 0%nat
                            = deref heapB (Path s) !! 0%nat
                            /\ 1 < length (deref heapB (Path sub))
                            /\ Subsections sub = [])
                         (Subsections s)
               /\ Subsections s `sublist_of` sectionsB)
            sectionsB.
Proof.
  assert (parseDocumentationMarkdown renderAll convert parse "B" 2 []
          = Ok (sectionsB, heapB)) as H by (vm_compute; reflexivity).
  split; [exact H|].
  exact (subsections_of_roots renderAll convert parse "B" 2 [] sectionsB heapB H).
Defined.

Lemma backtrack_returns_heading_witness :
  backtrackToNearestHeader renderAll (at_ 2 bodyA) = Ok (at_ 0 bodyA)
  /\ isHeading (at_ 0 bodyA) = true
  /\ exists digits level,
      Go.sliceFrom1 (NodeValue (at_ 0 bodyA)) = Ok digits
      /\ Go.Atoi digits = Some level
      /\ (1 <= level <= 6)%Z
      /\ headingLevel (at_ 0 bodyA) = Ok level.
Proof.
  assert (backtrackToNearestHeader renderAll (at_ 2 bodyA) = Ok (at_ 0 bodyA))
    as H by reflexivity.
  split; [exact H|].
  exact (backtrack_returns_heading renderAll _ _ H).
Defined.

(** C10. With [DEBUG] set, the deferred function renders again the node
    whose rendering has just panicked, and panics in turn: at the end of the
    siblings the capture loses the markup of the last sibling, and a
    heading that is the last element makes the capture itself panic.
    Without [DEBUG] the same captures return all the markup. *)
Theorem capture_at_end_with_DEBUG :
  htmlBetweenHeadingAndNextHeading renderAll "1" (at_ 0 bodyTail) (at_ 0 bodyTail)
  = Ok ""
  /\ htmlBetweenHeadingAndNextHeading renderAll "1" (at_ 1 bodyLast) (at_ 1 bodyLast)
     = Panic
  /\ htmlBetweenHeadingAndNextHeading renderAll "" (at_ 0 bodyTail) (at_ 0 bodyTail)
     = Ok "<p>a</p>"
  /\ htmlBetweenHeadingAndNextHeading renderAll "" (at_ 1 bodyLast) (at_ 1 bodyLast)
     = Ok "".
Proof. vm_compute. repeat split. Qed.

(* ===================================================================== *)
(** ** The further properties at the examples *)
(* ===================================================================== *)

Example toPascalCase_example :
  toPascalCase "general-col.active_border" = Ok "GeneralColActiveBorder".
Proof. reflexivity. Qed.

Lemma toPascalCase_no_separator_witness :
  toPascalCase "general-col.active_border" = Ok "GeneralColActiveBorder"
  /\ hasSeparator "GeneralColActiveBorder" = false.
Proof.
  assert (toPascalCase "general-col.active_border" = Ok "GeneralColActiveBorder")
    as H by reflexivity.
  split; [exact H|]. exact (toPascalCase_no_separator _ _ H).
Defined.

(** The path of a table below two headings of level 3: both titles are in
    it. *)
Example tablePath_nested :
  at_ 8 bodyNested = mkRoot (Some cursorV) "table"
  /\ tablePath renderAll (at_ 8 bodyNested) 2 = Ok ["A"; "x"; "y"].
Proof. split; reflexivity. Qed.

Lemma backtrack_nearest_heading_witness :
  soup.isElement tableV = true
  /\ Go.matchHeadingTag (Data tableV) = false
  /\ (Data tableV = "table" \/ is_Some (renderAll tableV))
  /\ renders renderAll ([nl] ++ headingY :: beforeY)
  /\ Forall (fun p => headingNode p = false) [nl]
  /\ headingNode headingY = true
  /\ backtrackToNearestHeader renderAll
       (soup.rootAt ([nl] ++ headingY :: beforeY) tableV [nl])
     = Ok (soup.rootAt beforeY headingY (rev [nl] ++ tableV :: [nl])).
Proof.
  assert (soup.isElement tableV = true) as H1 by reflexivity.
  assert (Go.matchHeadingTag (Data tableV) = false) as H2 by reflexivity.
  assert (Data tableV = "table" \/ is_Some (renderAll tableV)) as H3
    by (left; reflexivity).
  assert (renders renderAll ([nl] ++ headingY :: beforeY)) as H4
    by (repeat constructor; intros _; eexists; reflexivity).
  assert (Forall (fun p => headingNode p = false) [nl]) as H5
    by (repeat constructor).
  assert (headingNode headingY = true) as H6 by reflexivity.
  repeat (split; [assumption|]).
  exact (backtrack_nearest_heading renderAll _ _ _ _ _ H1 H2 H3 H4 H5 H6).
Defined.

Lemma tablePath_headings_witness :
  Pointer (at_ 8 bodyNested) = Some cursorV
  /\ soup.isElement (node cursorV) = true
  /\ NodeValue (at_ 8 bodyNested) = "table"
  /\ Data (node cursorV) = "table"
  /\ renders renderAll (prevs cursorV)
  /\ tablePath renderAll (at_ 8 bodyNested) 2 = ofOption (pathBack 2 (prevs cursorV)).
Proof.
  assert (Pointer (at_ 8 bodyNested) = Some cursorV) as H1 by reflexivity.
  assert (soup.isElement (node cursorV) = true) as H2 by reflexivity.
  assert (NodeValue (at_ 8 bodyNested) = "table") as H3 by reflexivity.
  assert (Data (node cursorV) = "table") as H4 by reflexivity.
  assert (renders renderAll (prevs cursorV)) as H5
    by (repeat constructor; intros _; eexists; reflexivity).
  repeat (split; [assumption|]).
  exact (tablePath_headings renderAll _ _ 2 H1 H2 H3 H4 H5).
Defined.

Lemma tablePath_name_witness :
  Pointer (at_ 8 bodyNested) = Some cursorV
  /\ soup.isElement (node cursorV) = true
  /\ NodeValue (at_ 8 bodyNested) = "table"
  /\ Data (node cursorV) = "table"
  /\ renders renderAll (prevs cursorV)
  /\ prevs cursorV = [nl] ++ headingY :: beforeY
  /\ Forall (fun p => headingNode p = false) [nl]
  /\ headingNode headingY = true
  /\ tablePath renderAll (at_ 8 bodyNested) 2 = Ok ["A"; "x"; "y"]
  /\ last ["A"; "x"; "y"] = Some (nodeText headingY)
  /\ (forall level, tagLevel (Data headingY) = Ok level ->
                    (level <= 2)%Z -> ["A"; "x"; "y"] = [nodeText headingY]).
Proof.
  assert (Pointer (at_ 8 bodyNested) = Some cursorV) as H1 by reflexivity.
  assert (soup.isElement (node cursorV) = true) as H2 by reflexivity.
  assert (NodeValue (at_ 8 bodyNested) = "table") as H3 by reflexivity.
  assert (Data (node cursorV) = "table") as H4 by reflexivity.
  assert (renders renderAll (prevs cursorV)) as H5
    by (repeat constructor; intros _; eexists; reflexivity).
  assert (prevs cursorV = [nl] ++ headingY :: beforeY) as H6 by reflexivity.
  assert (Forall (fun p => headingNode p = false) [nl]) as H7
    by (repeat constructor).
  assert (headingNode headingY = true) as H8 by reflexivity.
  assert (tablePath renderAll (at_ 8 bodyNested) 2 = Ok ["A"; "x"; "y"]) as H9
    by reflexivity.
  repeat (split; [assumption|]).
  exact (tablePath_name renderAll _ _ 2 _ _ _ _ H1 H2 H3 H4 H5 H6 H7 H8 H9).
Defined.

Lemma parse_fresh_paths_witness :
  parseDocumentationMarkdown renderAll convert parse "B" 2 [["General"]]
  = Ok (sectionsMaster, [["General"]; ["Layout"]; ["Layout"; "sub"]])
  /\ (exists paths, [["General"]; ["Layout"]; ["Layout"; "sub"]]
                    = [["General"]] ++ paths
                    /\ length paths = length sectionsMaster)
  /\ map Path sectionsMaster = seq (length [["General"]]) (length sectionsMaster)
  /\ Forall (fun s => deref [["General"]; ["Layout"]; ["Layout"; "sub"]] (Path s)
                      <> [])
            sectionsMaster.
Proof.
  assert (parseDocumentationMarkdown renderAll convert parse "B" 2 [["General"]]
          = Ok (sectionsMaster, [["General"]; ["Layout"]; ["Layout"; "sub"]]))
    as H by (vm_compute; reflexivity).
  split; [exact H|].
  exact (parse_fresh_paths renderAll convert parse "B" 2 _ _ _ H).
Defined.

Lemma subsections_complete_witness :
  parseDocumentationMarkdown renderAll convert parse "B" 2 [] = Ok (sectionsB, heapB)
  /\ mkSection 0 [mkSection 1 [] variablesSub] variablesLayout ∈ sectionsB
  /\ mkSection 1 [] variablesSub ∈ sectionsB
  /\ length (deref heapB 0) = 1
  /\ 1 < length (deref heapB 1)
  /\ deref heapB 1 !! 0%nat = deref heapB 0 !! 0%nat
  /\ mkSection 1 [] variablesSub
     ∈ Subsections (mkSection 0 [mkSection 1 [] variablesSub] variablesLayout).
Proof.
  assert (parseDocumentationMarkdown renderAll convert parse "B" 2 []
          = Ok (sectionsB, heapB)) as H by (vm_compute; reflexivity).
  assert (mkSection 0 [mkSection 1 [] variablesSub] variablesLayout ∈ sectionsB)
    as H1 by apply list_elem_of_here.
  assert (mkSection 1 [] variablesSub ∈ sectionsB) as H2
    by (apply list_elem_of_further, list_elem_of_here).
  assert (length (deref heapB 0) = 1) as H3 by reflexivity.
  assert (1 < length (deref heapB 1)) as H4 by (simpl; lia).
  assert (deref heapB 1 !! 0%nat = deref heapB 0 !! 0%nat) as H5 by reflexivity.
  repeat (split; [assumption|]).
  exact (subsections_complete renderAll convert parse "B" 2 [] _ _ _ _
           H H1 H2 H3 H4 H5).
Defined.

Lemma rename_frame_witness :
  parseDocumentationMarkdownWithRootSectionName renderAll convert parse "B" 2
    "Master" [["General"]]
  = Ok (sectionsMaster, [["General"]; ["Master"]; ["Master"; "sub"]])
  /\ (forall l, l < length [["General"]] ->
                deref [["General"]; ["Master"]; ["Master"; "sub"]] l
                = deref [["General"]] l)
  /\ length [["General"]; ["Master"]; ["Master"; "sub"]]
     = length [["General"]] + length sectionsMaster
  /\ map Path sectionsMaster = seq (length [["General"]]) (length sectionsMaster)
  /\ Forall (fun s => deref [["General"]; ["Master"]; ["Master"; "sub"]] (Path s)
                        !! 0%nat = Some "Master")
            sectionsMaster.
Proof.
  assert (parseDocumentationMarkdownWithRootSectionName renderAll convert parse
            "B" 2 "Master" [["General"]]
          = Ok (sectionsMaster, [["General"]; ["Master"]; ["Master"; "sub"]]))
    as H by (vm_compute; reflexivity).
  split; [exact H|].
  exact (rename_frame renderAll convert parse "B" 2 "Master" _ _ _ H).
Defined.


Lemma addVariableDefsOnSection_sections_witness :
  addVariableDefsOnSection [["General"]] [sectionGeneral] "General"
    undocumentedGeneralSectionVariables
  = Ok [sectionGeneralMore]
  /\ Forall2 (fun s s' =>
                Path s' = Path s /\ Subsections s' = Subsections s
                /\ (SectionDefinition_Name [["General"]] s = Ok "General"
                    /\ Variables s'
                       = Variables s ++ undocumentedGeneralSectionVariables
                    \/ SectionDefinition_Name [["General"]] s <> Ok "General"
                       /\ s' = s))
             [sectionGeneral] [sectionGeneralMore].
Proof.
  assert (addVariableDefsOnSection [["General"]] [sectionGeneral] "General"
            undocumentedGeneralSectionVariables
          = Ok [sectionGeneralMore]) as H by reflexivity.
  split; [exact H|].
  exact (addVariableDefsOnSection_sections _ _ _ _ _ H).
Defined.

Lemma lookup_after_addVariableDefs_witness :
  addVariableDefsOnSection [["General"]] [sectionGeneral] "General"
    undocumentedGeneralSectionVariables
  = Ok [sectionGeneralMore]
  /\ Forall2 (fun s s' =>
                forall name,
                  match SectionDefinition_VariableDefinition s name with
                  | Some v =>
                      SectionDefinition_VariableDefinition s' name = Some v
                  | None =>
                      SectionDefinition_Name [["General"]] s = Ok "General" ->
                      SectionDefinition_VariableDefinition s' name
                      = SectionDefinition_VariableDefinition_in
                          undocumentedGeneralSectionVariables name
                  end)
             [sectionGeneral] [sectionGeneralMore].
Proof.
  assert (addVariableDefsOnSection [["General"]] [sectionGeneral] "General"
            undocumentedGeneralSectionVariables
          = Ok [sectionGeneralMore]) as H by reflexivity.
  split; [exact H|].
  exact (lookup_after_addVariableDefs _ _ _ _ _ H).
Defined.

Lemma init_Sections_documents_witness :
  init_Sections renderAll convert parse "A" "B" "B" []
  = Ok (sectionGeneralMore :: sectionsMaster ++ sectionsDwindle, heapInit)
  /\ exists first h1 master h2 dwindle,
      parseDocumentationMarkdown renderAll convert parse "A" 3 [] = Ok (first, h1)
      /\ parseDocumentationMarkdownWithRootSectionName renderAll convert parse
           "B" 2 "Master" h1 = Ok (master, h2)
      /\ parseDocumentationMarkdownWithRootSectionName renderAll convert parse
           "B" 2 "Dwindle" h2 = Ok (dwindle, heapInit)
      /\ map Path (sectionGeneralMore :: sectionsMaster ++ sectionsDwindle)
         = map Path (first ++ master ++ dwindle)
      /\ Forall (fun s => deref heapInit (Path s) = deref h1 (Path s)) first
      /\ Forall (fun s => deref heapInit (Path s) !! 0%nat = Some "Master") master
      /\ Forall (fun s => deref heapInit (Path s) !! 0%nat = Some "Dwindle")
                dwindle.
Proof.
  assert (init_Sections renderAll convert parse "A" "B" "B" []
          = Ok (sectionGeneralMore :: sectionsMaster ++ sectionsDwindle, heapInit))
    as H by (vm_compute; reflexivity).
  split; [exact H|].
  exact (init_Sections_documents renderAll convert parse "A" "B" "B" [] _ _ H).
Defined.


(** The loop over the keywords at four of them: one is described, one has
    an anchor that no heading matches, one a file that cannot be read, and
    one a description already. *)
Example init_Keywords_example :
  init_Keywords renderAll "" convert parse (fun html => html) readFile join
    keywords
  = Ok keywordsDone.
Proof. vm_compute. reflexivity. Qed.

Lemma init_Keywords_frame_witness :
  init_Keywords renderAll "" convert parse (fun html => html) readFile join
    keywords
  = Ok keywordsDone
  /\ Forall2 (fun kw kw' =>
                kwName kw' = kwName kw
                /\ documentationFile kw' = documentationFile kw
                /\ documentationHeadingSlug kw' = documentationHeadingSlug kw
                /\ (kwDescription kw <> "" -> kw' = kw))
             keywords keywordsDone.
Proof.
  assert (init_Keywords renderAll "" convert parse (fun html => html) readFile
            join keywords = Ok keywordsDone) as H by (vm_compute; reflexivity).
  split; [exact H|].
  exact (init_Keywords_frame renderAll "" convert parse (fun html => html)
           readFile join _ _ H).
Defined.

Lemma init_Keywords_again_witness :
  init_Keywords renderAll "" convert parse (fun html => html) readFile join
    keywords
  = Ok keywordsDone
  /\ init_Keywords renderAll "" convert parse (fun html => html) readFile join
       keywordsDone
     = Ok keywordsDone.
Proof.
  assert (init_Keywords renderAll "" convert parse (fun html => html) readFile
            join keywords = Ok keywordsDone) as H by (vm_compute; reflexivity).
  split; [exact H|].
  exact (init_Keywords_again renderAll "" convert parse (fun html => html)
           readFile join _ _ H).
Defined.

Lemma init_keyword_miss_witness :
  kwDescription (mkKeyword "exec" "Keywords" "nowhere" "") = ""
  /\ readFile (join "sources" ("Keywords" +:+ ".md")) = Some "anchors"
  /\ markdownToHTML convert parse "anchors" = Ok (document bodyAnchors)
  /\ (exists c, Pointer (document bodyAnchors) = Some c)
  /\ Forall (fun h => matchesSlug "nowhere" h = false)
            (headingsByLevel (document bodyAnchors))
  /\ init_keyword renderAll "" convert parse (fun html => html) readFile join
       (mkKeyword "exec" "Keywords" "nowhere" "")
     = Ok (mkKeyword "exec" "Keywords" "nowhere" "").
Proof.
  assert (kwDescription (mkKeyword "exec" "Keywords" "nowhere" "") = "")
    as H1 by reflexivity.
  assert (readFile (join "sources" ("Keywords" +:+ ".md")) = Some "anchors")
    as H2 by reflexivity.
  assert (markdownToHTML convert parse "anchors" = Ok (document bodyAnchors))
    as H3 by reflexivity.
  assert (exists c, Pointer (document bodyAnchors) = Some c) as H4
    by (eexists; reflexivity).
  assert (Forall (fun h => matchesSlug "nowhere" h = false)
                 (headingsByLevel (document bodyAnchors))) as H5
    by (repeat constructor).
  repeat (split; [assumption|]).
  exact (init_keyword_miss renderAll "" convert parse (fun html => html)
           readFile join _ _ _ H1 H2 H3 H4 H5).
Defined.

Lemma capture_is_prefix_witness :
  "" = ""
  /\ isHeading (at_ 0 bodyLevels) = true
  /\ (exists c, Pointer (at_ 0 bodyLevels) = Some c)
  /\ exists k,
      htmlBetweenHeadingAndNextHeading renderAll "" (at_ 0 bodyLevels)
        (at_ 0 bodyLevels)
      = Ok (joined (map (markup renderAll) (take k (following (at_ 0 bodyLevels)))))
      /\ Forall (fun n => boundary (at_ 0 bodyLevels) n = false
                          /\ is_Some (renderAll n))
                (take k (following (at_ 0 bodyLevels))).
Proof.
  assert (isHeading (at_ 0 bodyLevels) = true) as H1 by reflexivity.
  assert (exists c, Pointer (at_ 0 bodyLevels) = Some c) as H2
    by (eexists; reflexivity).
  split; [reflexivity|]. repeat (split; [assumption|]).
  exact (capture_is_prefix renderAll "" _ eq_refl H1 H2).
Defined.

Lemma capture_to_end_witness :
  "" = ""
  /\ isHeading (at_ 0 bodyTail) = true
  /\ (exists c, Pointer (at_ 0 bodyTail) = Some c)
  /\ Forall (fun n => boundary (at_ 0 bodyTail) n = false)
            (following (at_ 0 bodyTail))
  /\ Forall (fun n => is_Some (renderAll n)) (following (at_ 0 bodyTail))
  /\ htmlBetweenHeadingAndNextHeading renderAll "" (at_ 0 bodyTail)
       (at_ 0 bodyTail)
     = Ok (joined (map (markup renderAll) (following (at_ 0 bodyTail)))).
Proof.
  assert (isHeading (at_ 0 bodyTail) = true) as H1 by reflexivity.
  assert (exists c, Pointer (at_ 0 bodyTail) = Some c) as H2
    by (eexists; reflexivity).
  assert (Forall (fun n => boundary (at_ 0 bodyTail) n = false)
                 (following (at_ 0 bodyTail))) as H3 by (repeat constructor).
  assert (Forall (fun n => is_Some (renderAll n)) (following (at_ 0 bodyTail)))
    as H4 by (repeat constructor; eexists; reflexivity).
  split; [reflexivity|]. repeat (split; [assumption|]).
  exact (capture_to_end renderAll "" _ eq_refl H1 H2 H3 H4).
Defined.

Lemma capture_to_end_with_DEBUG_witness :
  "1" <> ""
  /\ isHeading (at_ 4 bodyB) = true
  /\ (exists c, Pointer (at_ 4 bodyB) = Some c)
  /\ following (at_ 4 bodyB)
     = [elem "p" [] [text "About sub."];
        table schema [["a"; "first"; "bool"; "0"]; ["b"; "short row"; "int"];
                      ["c"; "third"; "str"; "x"]]]
       ++ [table ["name"; "value"] [["k"; "v"]]]
  /\ Forall (fun n => boundary (at_ 4 bodyB) n = false)
            ([elem "p" [] [text "About sub."];
              table schema [["a"; "first"; "bool"; "0"];
                            ["b"; "short row"; "int"];
                            ["c"; "third"; "str"; "x"]]]
             ++ [table ["name"; "value"] [["k"; "v"]]])
  /\ Forall (fun n => is_Some (renderAll n))
            ([elem "p" [] [text "About sub."];
              table schema [["a"; "first"; "bool"; "0"];
                            ["b"; "short row"; "int"];
                            ["c"; "third"; "str"; "x"]]]
             ++ [table ["name"; "value"] [["k"; "v"]]])
  /\ htmlBetweenHeadingAndNextHeading renderAll "1" (at_ 4 bodyB) (at_ 4 bodyB)
     = Ok (joined
             (map (markup renderAll)
                  [elem "p" [] [text "About sub."];
                   table schema [["a"; "first"; "bool"; "0"];
                                 ["b"; "short row"; "int"];
                                 ["c"; "third"; "str"; "x"]]])).
Proof.
  assert ("1" <> "") as H0 by discriminate.
  assert (isHeading (at_ 4 bodyB) = true) as H1 by reflexivity.
  assert (exists c, Pointer (at_ 4 bodyB) = Some c) as H2
    by (eexists; reflexivity).
  assert (following (at_ 4 bodyB)
          = [elem "p" [] [text "About sub."];
             table schema [["a"; "first"; "bool"; "0"];
                           ["b"; "short row"; "int"];
                           ["c"; "third"; "str"; "x"]]]
            ++ [table ["name"; "value"] [["k"; "v"]]]) as H3 by reflexivity.
  assert (Forall (fun n => boundary (at_ 4 bodyB) n = false)
                 ([elem "p" [] [text "About sub."];
                   table schema [["a"; "first"; "bool"; "0"];
                                 ["b"; "short row"; "int"];
                                 ["c"; "third"; "str"; "x"]]]
                  ++ [table ["name"; "value"] [["k"; "v"]]])) as H4
    by (repeat constructor).
  assert (Forall (fun n => is_Some (renderAll n))
                 ([elem "p" [] [text "About sub."];
                   table schema [["a"; "first"; "bool"; "0"];
                                 ["b"; "short row"; "int"];
                                 ["c"; "third"; "str"; "x"]]]
                  ++ [table ["name"; "value"] [["k"; "v"]]])) as H5
    by (repeat constructor; eexists; reflexivity).
  repeat (split; [assumption|]).
  exact (capture_to_end_with_DEBUG renderAll "1" _ _ _ H0 H1 H2 H3 H4 H5).
Defined.

Lemma capture_nothing_with_DEBUG_witness :
  "1" <> ""
  /\ isHeading (at_ 1 bodyLast) = true
  /\ (exists c, Pointer (at_ 1 bodyLast) = Some c)
  /\ following (at_ 1 bodyLast) = []
  /\ htmlBetweenHeadingAndNextHeading renderAll "1" (at_ 1 bodyLast)
       (at_ 1 bodyLast)
     = Panic.
Proof.
  assert ("1" <> "") as H0 by discriminate.
  assert (isHeading (at_ 1 bodyLast) = true) as H1 by reflexivity.
  assert (exists c, Pointer (at_ 1 bodyLast) = Some c) as H2
    by (eexists; reflexivity).
  assert (following (at_ 1 bodyLast) = []) as H3 by reflexivity.
  repeat (split; [assumption|]).
  exact (capture_nothing_with_DEBUG renderAll "1" _ H0 H1 H2 H3).
Defined.

Lemma parse_returns_witness :
  markdownToHTML convert parse "B" = Ok (document bodyB)
  /\ soup.FindAll (document bodyB) "table"
     = Ok [at_ 2 bodyB; at_ 8 bodyB; at_ 10 bodyB]
  /\ Forall (fun table =>
               qualifies table = true ->
               (exists path, tablePath renderAll table 2 = Ok path)
               /\ List.filter (named "tr") (below table) <> [])
            [at_ 2 bodyB; at_ 8 bodyB; at_ 10 bodyB]
  /\ exists sections h',
      parseDocumentationMarkdown renderAll convert parse "B" 2 [] 
      = Ok (sections, h').
Proof.
  assert (markdownToHTML convert parse "B" = Ok (document bodyB)) as H1
    by reflexivity.
  assert (soup.FindAll (document bodyB) "table"
          = Ok [at_ 2 bodyB; at_ 8 bodyB; at_ 10 bodyB]) as H2
    by (vm_compute; reflexivity).
  assert (Forall (fun table =>
                    qualifies table = true ->
                    (exists path, tablePath renderAll table 2 = Ok path)
                    /\ List.filter (named "tr") (below table) <> [])
                 [at_ 2 bodyB; at_ 8 bodyB; at_ 10 bodyB]) as H3.
  { apply Forall_cons_2; [|apply Forall_cons_2; [|apply Forall_cons_2]].
    - intros _. split; [eexists; vm_compute; reflexivity|].
      vm_compute. discriminate.
    - intros _. split; [eexists; vm_compute; reflexivity|].
      vm_compute. discriminate.
    - intros Hq. vm_compute in Hq. discriminate.
    - apply Forall_nil_2. }
  repeat (split; [assumption|]).
  exact (parse_returns renderAll convert parse "B" 2 [] _ _ H1 H2 H3).
Defined.
